(** * sendmail.py: the Mail class and its retrying [send]

    A shallow embedding of [src/sendmail.py].  The two classes of the module,
    [MailSender] and [Mail], become records; [Mail.__init__] becomes a
    function that either returns the record or raises; [Mail.send], which
    talks to an SMTP server, sleeps and prints, becomes a computation in a
    small state-and-exception monad whose state holds the local variables of
    [send] and the trace of everything the call did to the outside world.

    What lies outside the file is an oracle: for the attempt numbered [k]
    and each of the six calls into [smtplib] of an attempt it says whether
    the call returns or which exception it raises; it says the same of the
    rendering of the message by the [email] library, and it says how the
    interpreter writes characters outside ASCII. *)

From Stdlib Require Import ZArith List String Ascii Bool Lia.
From Stdlib Require Import Strings.Byte DecimalString.
Import ListNotations.

Open Scope string_scope.
Open Scope Z_scope.

(* ===================================================================== *)
(** ** The parts of the Python runtime the module relies on *)
(* ===================================================================== *)

Module Py.

(** The exception classes that matter to [sendmail.py]: the ones it names
    ([ValueError], [OSError], [smtplib.SMTPAuthenticationError],
    [UnboundLocalError], [KeyboardInterrupt]) and the ones [smtplib] and
    [email] raise, with their place in the class hierarchy. *)
Inductive exc_class : Set :=
| BaseException | KeyboardInterrupt | Exception
| RuntimeError | NameError | UnboundLocalError
| ValueError | UnicodeError | UnicodeEncodeError
| MessageError | MessageParseError | HeaderParseError
| OSError | ConnectionError | ConnectionRefusedError | TimeoutError
| gaierror | SSLError
| SMTPException | SMTPServerDisconnected | SMTPNotSupportedError
| SMTPRecipientsRefused | SMTPResponseException | SMTPSenderRefused
| SMTPDataError | SMTPConnectError | SMTPHeloError
| SMTPAuthenticationError.

Scheme Equality for exc_class.

(** The direct base class ([class SMTPException(OSError)] and so on). *)
Definition base (c : exc_class) : option exc_class :=
  match c with
  | BaseException => None
  | KeyboardInterrupt => Some BaseException
  | Exception => Some BaseException
  | RuntimeError => Some Exception
  | NameError => Some Exception
  | UnboundLocalError => Some NameError
  | ValueError => Some Exception
  | UnicodeError => Some ValueError
  | UnicodeEncodeError => Some UnicodeError
  | MessageError => Some Exception
  | MessageParseError => Some MessageError
  | HeaderParseError => Some MessageParseError
  | OSError => Some Exception
  | ConnectionError => Some OSError
  | ConnectionRefusedError => Some ConnectionError
  | TimeoutError => Some OSError
  | gaierror => Some OSError
  | SSLError => Some OSError
  | SMTPException => Some OSError
  | SMTPServerDisconnected => Some SMTPException
  | SMTPNotSupportedError => Some SMTPException
  | SMTPRecipientsRefused => Some SMTPException
  | SMTPResponseException => Some SMTPException
  | SMTPSenderRefused => Some SMTPResponseException
  | SMTPDataError => Some SMTPResponseException
  | SMTPConnectError => Some SMTPResponseException
  | SMTPHeloError => Some SMTPResponseException
  | SMTPAuthenticationError => Some SMTPResponseException
  end.

(** [issubclass c d], walking up at most [depth] base classes. *)
Fixpoint issubclass_upto (depth : nat) (c d : exc_class) : bool :=
  exc_class_beq c d ||
  match depth with
  | O => false
  | S depth' =>
      match base c with
      | Some b => issubclass_upto depth' b d
      | None => false
      end
  end.

(** No class above is more than six steps below [BaseException]. *)
Definition issubclass : exc_class -> exc_class -> bool := issubclass_upto 6.

(** A raised exception: its class and what [str()] gives for it. *)
Record exn : Set := mk_exn { exn_class : exc_class; exn_str : string }.

Definition isinstance (e : exn) (c : exc_class) : bool :=
  issubclass (exn_class e) c.

(** How a call ends.  [OutOfFuel] is not a Python outcome: it marks a loop
    of the model that was given too little fuel, and is shown below never
    to come out of [Mail.send]. *)
Inductive result (A : Type) : Type :=
| Return (a : A)
| Raise (e : exn)
| OutOfFuel.
Arguments Return {A} a.
Arguments Raise {A} e.
Arguments OutOfFuel {A}.

(** Truth value of an [Optional[str]]: [None] and [''] are false. *)
Definition truthy (o : option string) : bool :=
  match o with
  | None => false
  | Some s => negb (s =? "")%string
  end.

(** [str(n)] for an int. *)
Definition str_int (n : Z) : string := NilZero.string_of_int (Z.to_int n).

(** [tpl.format(a1, a2, ...)] for a template whose only fields are [{}].  The
    arguments are already strings; a field beyond the arguments (which
    Python rejects with IndexError, and the module never writes) is left
    empty, and surplus arguments are ignored as in Python. *)
Fixpoint format (tpl : string) (args : list string) : string :=
  match tpl with
  | EmptyString => EmptyString
  | String "{" (String "}" rest) =>
      match args with
      | a :: args' => a ++ format rest args'
      | [] => format rest []
      end
  | String c rest => String c (format rest args)
  end.

Definition dquote : ascii := "034"%char.
Definition squote : ascii := "039"%char.
Definition backslash : ascii := "092"%char.

Fixpoint contains (c : ascii) (s : string) : bool :=
  match s with
  | EmptyString => false
  | String d rest => Ascii.eqb c d || contains c rest
  end.

Definition hex_digit (n : N) : ascii :=
  if (n <? 10)%N then ascii_of_N (48 + n) else ascii_of_N (87 + n).

(** One ASCII character of [repr(s)] written between [quote]s. *)
Definition repr_char (quote c : ascii) : string :=
  let n := N_of_ascii c in
  if Ascii.eqb c backslash || Ascii.eqb c quote then String backslash (String c "")
  else if (n =? 9)%N then String backslash "t"
  else if (n =? 10)%N then String backslash "n"
  else if (n =? 13)%N then String backslash "r"
  else if (n <? 32)%N || (n =? 127)%N
       then String backslash
              (String "x" (String (hex_digit (n / 16)) (String (hex_digit (n mod 16)) "")))
  else String c "".

(** A byte of a character outside ASCII (texts are held as UTF-8). *)
Definition is_high (c : ascii) : bool := (128 <=? N_of_ascii c)%N.

(** A finished run of such bytes, written as [others] says. *)
Definition flush (others : string -> string) (run : string) : string :=
  match run with
  | EmptyString => EmptyString
  | _ => others run
  end.

(** The characters of [repr(s)].  What [repr] does with a character outside
    ASCII (copy it when the Unicode tables of the interpreter call it
    printable, write it as [\xhh], [\uhhhh] or [\Uhhhhhhhh] when not) is
    not decided here: a run of such characters is given to [others]. *)
Fixpoint repr_chars (others : string -> string) (quote : ascii)
    (run s : string) : string :=
  match s with
  | EmptyString => flush others run
  | String c rest =>
      if is_high c then repr_chars others quote (run ++ String c "") rest
      else flush others run ++ repr_char quote c ++
           repr_chars others quote "" rest
  end.

(** [repr(s)] for a str: single quotes, unless the text has a single quote
    and no double quote. *)
Definition repr_str (others : string -> string) (s : string) : string :=
  let quote := if contains squote s && negb (contains dquote s)
               then dquote else squote in
  String quote (repr_chars others quote "" s ++ String quote "").

(** [str(l)] for a list of str: ["['a', 'b']"]. *)
Definition str_list (others : string -> string) (l : list string) : string :=
  "[" ++ String.concat ", " (map (repr_str others) l) ++ "]".

(** [sep.join(l)]. *)
Definition join (sep : string) (l : list string) : string := String.concat sep l.

Definition lower_char (c : ascii) : ascii :=
  let n := N_of_ascii c in
  if (65 <=? n)%N && (n <=? 90)%N then ascii_of_N (n + 32) else c.

Fixpoint lower (s : string) : string :=
  match s with
  | EmptyString => EmptyString
  | String c rest => String (lower_char c) (lower rest)
  end.

End Py.
Import Py.

(* ===================================================================== *)
(** ** The data model *)
(* ===================================================================== *)

(** [class MailSender]: the constructor only stores its arguments. *)
Module MailSender.

Record t : Set := __init__ {
  user : string;
  password : string;
  server : string;
  from_ : option string;
  reply_to : option string
}.

End MailSender.

(** The MIME document that [email.mime] builds.  Only what [sendmail.py]
    puts into it is kept: the parts in order and the headers in the order
    they were set.  A header value is an [Optional[str]], because the module
    may store [None] under Reply-To. *)
Inductive mime_part : Set :=
| MIMEText (text : string)
| MIMEBase_octet_stream (payload : list byte) (content_disposition : string).

Record MIMEMultipart : Set := {
  headers : list (string * option string);
  parts : list mime_part
}.

(** [MIMEMultipart(subtype)]: the library sets Content-Type and
    MIME-Version itself. *)
Definition new_MIMEMultipart (subtype : string) : MIMEMultipart :=
  {| headers := [("Content-Type", Some ("multipart/" ++ subtype));
                 ("MIME-Version", Some "1.0")];
     parts := [] |}.

(** [msg.attach(p)]. *)
Definition attach (p : mime_part) (msg : MIMEMultipart) : MIMEMultipart :=
  {| headers := headers msg; parts := parts msg ++ [p] |}.

(** [msg[name] = value]: the library appends, it does not replace. *)
Definition setitem (name : string) (value : option string) (msg : MIMEMultipart)
  : MIMEMultipart :=
  {| headers := headers msg ++ [(name, value)]; parts := parts msg |}.

(** [msg[name]]: the value of the first header of that name, compared
    without case; [None] when there is none. *)
Definition getitem (name : string) (msg : MIMEMultipart) : option string :=
  match find (fun h => (lower (fst h) =? lower name)%string) (headers msg) with
  | Some h => snd h
  | None => None
  end.

(** An argument that is [Union[str, List[str]]]. *)
Inductive str_or_list : Set :=
| a_str (s : string)
| a_list (l : list string).

(** What the module does to the outside world, in the order it does it:
    the calls into [smtplib] (a connection is named by the number of the
    attempt that opened it), what it prints and how long it sleeps.  The
    [sendmail] event carries the message itself; the text that goes over the
    wire is the library's rendering of it, [msg.as_string()], which has
    returned when the event occurs. *)
Inductive event : Set :=
| ev_SMTP (host : string)
| ev_ehlo (conn : Z)
| ev_starttls (conn : Z)
| ev_login (conn : Z) (user password : string)
| ev_sendmail (conn : Z) (from_addr : string) (to_addrs : list string)
              (msg : MIMEMultipart)
| ev_close (conn : Z)
| ev_print (line : string)
| ev_sleep (secs : Z).

(** The six library calls of one attempt, in program order. *)
Inductive smtp_call : Set :=
| c_SMTP | c_ehlo1 | c_starttls | c_ehlo2 | c_login | c_sendmail.

(** What lies outside [sendmail.py] during one call of [send].
    - The server and network: [env k c] is [None] when call [c] of the
      attempt numbered [k] returns, and [Some e] when it raises [e].
    - The [email] library: [as_string env] is [None] when
      [msg.as_string()] returns the text of the message at hand, and
      [Some e] when it raises [e] (as it does, with HeaderParseError, for a
      header value with a line break followed by a header name).
    - The interpreter: [repr_others env] is how [repr] writes a run of
      characters outside ASCII. *)
Record oracle : Type := {
  answer :> Z -> smtp_call -> option exn;
  as_string : option exn;
  repr_others : string -> string
}.

(* ===================================================================== *)
(** ** A monad for the body of [send] *)
(* ===================================================================== *)

(** The local variables of [send] and the trace.  [smtpserver = None] is
    the unbound local. *)
Record frame : Set := {
  tries : Z;
  success : bool;
  smtpserver : option Z;
  world : list event
}.

Definition M (A : Type) : Type := frame -> frame * result A.

Definition ret {A} (a : A) : M A := fun f => (f, Return a).

Definition bind {A B} (m : M A) (k : A -> M B) : M B :=
  fun f =>
    match m f with
    | (f', Return a) => k a f'
    | (f', Raise e) => (f', Raise e)
    | (f', OutOfFuel) => (f', OutOfFuel)
    end.

Declare Scope py_scope.
Delimit Scope py_scope with py.
Notation "x <- c1 ;; c2" := (bind c1 (fun x => c2))
  (at level 61, c1 at next level, right associativity) : py_scope.
Notation "c1 ;; c2" := (bind c1 (fun _ => c2))
  (at level 61, right associativity) : py_scope.
Open Scope py_scope.

Definition raise {A} (e : exn) : M A := fun f => (f, Raise e).

Definition emit (ev : event) : M unit :=
  fun f => ({| tries := tries f; success := success f;
               smtpserver := smtpserver f; world := world f ++ [ev] |},
            Return tt).

Definition print (line : string) : M unit := emit (ev_print line).
Definition time_sleep (secs : Z) : M unit := emit (ev_sleep secs).

Definition load {A} (var : frame -> A) : M A := fun f => (f, Return (var f)).

Definition store_tries (v : Z) : M unit :=
  fun f => ({| tries := v; success := success f;
               smtpserver := smtpserver f; world := world f |}, Return tt).

Definition store_success (v : bool) : M unit :=
  fun f => ({| tries := tries f; success := v;
               smtpserver := smtpserver f; world := world f |}, Return tt).

Definition store_smtpserver (v : Z) : M unit :=
  fun f => ({| tries := tries f; success := success f;
               smtpserver := Some v; world := world f |}, Return tt).

(** Reading the local [smtpserver] before it was ever assigned. *)
Definition load_smtpserver : M Z :=
  fun f =>
    match smtpserver f with
    | Some conn => (f, Return conn)
    | None => (f, Raise (mk_exn UnboundLocalError
                 "cannot access local variable 'smtpserver' where it is not associated with a value"))
    end.

(** [try: body / except cls_1: h_1 / ... / else: orelse / finally: finalbody].
    The first handler whose class the exception is an instance of runs; an
    exception raised by a handler or by [orelse] is not handled here; the
    [finally] block runs whatever happened, and what it raises wins. *)
Definition try_except_else_finally
    (body : M unit) (handlers : list (exc_class * (exn -> M unit)))
    (orelse finalbody : M unit) : M unit :=
  fun f =>
    let '(f1, r1) := body f in
    let '(f2, r2) :=
      match r1 with
      | Return _ => orelse f1
      | Raise e =>
          match find (fun h => isinstance e (fst h)) handlers with
          | Some h => snd h e f1
          | None => (f1, Raise e)
          end
      | OutOfFuel => (f1, OutOfFuel)
      end in
    let '(f3, r3) := finalbody f2 in
    match r3 with
    | Return _ => (f3, r2)
    | Raise e => (f3, Raise e)
    | OutOfFuel => (f3, OutOfFuel)
    end.

(** [while cond: body], unrolled at most [fuel] times. *)
Fixpoint while (fuel : nat) (cond : frame -> bool) (body : M unit) : M unit :=
  fun f =>
    if cond f then
      match fuel with
      | O => (f, OutOfFuel)
      | S fuel' =>
          match body f with
          | (f', Return _) => while fuel' cond body f'
          | (f', Raise e) => (f', Raise e)
          | (f', OutOfFuel) => (f', OutOfFuel)
          end
      end
    else (f, Return tt).

(* ===================================================================== *)
(** ** [class Mail] *)
(* ===================================================================== *)

Module Mail.

(** The attributes of a [Mail] object. *)
Record t : Set := {
  sender : MailSender.t;
  msg : MIMEMultipart;
  to : list string;
  bcc : list string
}.

(** [Mail.__init__].  [now] is the text that
    [datetime.now(timezone.utc).astimezone().strftime(...)] gives at the
    time of the call. *)
Definition __init__
    (sender : MailSender.t)
    (to : option str_or_list)
    (subject text : string)
    (attachments : option (list (string * list byte)))
    (bcc : option str_or_list)
    (reply_to custom_to_header : option string)
    (root_msg_mime_subtype : string)
    (now : string) : result t :=
  let attachments := match attachments with None => [] | Some d => d end in
  match to with
  | None => Raise (mk_exn ValueError "Mail: No recipient given")
  | Some to =>
      let msg := new_MIMEMultipart root_msg_mime_subtype in
      let msg := attach (MIMEText text) msg in
      let msg :=
        fold_left
          (fun msg item =>
             attach (MIMEBase_octet_stream (snd item)
                       (format ("attachment; filename=" ++
                                String dquote ("{}" ++ String dquote ""))
                               [fst item]))
                    msg)
          attachments msg in
      let self_to := match to with a_str s => [s] | a_list l => l end in
      let self_bcc :=
        match bcc with
        | None => []
        | Some (a_str s) => [s]
        | Some (a_list l) => l
        end in
      let msg := setitem "Subject" (Some subject) msg in
      let msg :=
        setitem "To"
          (match custom_to_header with
           | None => Some (join "," self_to)
           | Some h => Some h
           end) msg in
      let msg :=
        setitem "From"
          (if truthy (MailSender.from_ sender) then MailSender.from_ sender
           else Some (MailSender.user sender)) msg in
      let msg :=
        setitem "Reply-To"
          (if truthy reply_to then reply_to
           else if truthy (MailSender.reply_to sender)
                then MailSender.reply_to sender
                else MailSender.from_ sender) msg in
      let msg := setitem "Date" (Some now) msg in
      Return {| sender := sender; msg := msg; to := self_to; bcc := self_bcc |}
  end.

Section Send.

Variable env : oracle.

(** A call into [smtplib] during the attempt numbered by the current value
    of [tries]: it is recorded, then returns or raises as the oracle says. *)
Definition smtp (which : smtp_call) (ev : event) : M unit :=
  emit ev ;;
  k <- load tries ;;
  match env k which with
  | None => ret tt
  | Some e => raise e
  end.

(** [self.msg.as_string()], the last argument of the [sendmail] call: it is
    evaluated, and may raise, before the call is made. *)
Definition render : M unit :=
  match as_string env with
  | None => ret tt
  | Some e => raise e
  end.

(** The [try] block of [send]. *)
Definition send_try (self : t) (to : list string) : M unit :=
  k <- load tries ;;
  smtp c_SMTP (ev_SMTP (MailSender.server (sender self))) ;;
  store_smtpserver k ;;
  s <- load_smtpserver ;; smtp c_ehlo1 (ev_ehlo s) ;;
  s <- load_smtpserver ;; smtp c_starttls (ev_starttls s) ;;
  s <- load_smtpserver ;; smtp c_ehlo2 (ev_ehlo s) ;;
  s <- load_smtpserver ;;
  smtp c_login (ev_login s (MailSender.user (sender self))
                           (MailSender.password (sender self))) ;;
  s <- load_smtpserver ;;
  render ;;
  smtp c_sendmail (ev_sendmail s (MailSender.user (sender self)) to (msg self)).

(** [["once", "twice", "{} times"][min(tries, 2)].format(tries + 1)]. *)
Definition ordinal (tries : Z) : string :=
  format (nth (Z.to_nat (Z.min tries 2)) ["once"; "twice"; "{} times"] "")
         [str_int (tries + 1)].

Definition failed_sending (self_to : list string) (tries : Z) (err : exn) : string :=
  format "Failed sending to <{}> {}: {} (waiting {}s)"
         [str_list (repr_others env) self_to; ordinal tries; exn_str err;
          str_int (tries ^ 2)].

(** One turn of the [while] loop: the whole [try] statement.  The six
    calls of the [try] block and [msg.as_string()] may raise, as [env]
    says; [smtpserver.close()] is taken to return. *)
Definition send_attempt (self : t) (to : list string) : M unit :=
  try_except_else_finally
    (send_try self to)
    [ (SMTPAuthenticationError,
       fun _ =>
         print "Failed sending: Authentication Error" ;;
         k <- load tries ;;
         time_sleep k ;;
         store_tries (k + 1));
      (OSError,
       fun err =>
         k <- load tries ;;
         print (failed_sending (Mail.to self) k err) ;;
         time_sleep (k ^ 2) ;;
         store_tries (k + 1)) ]
    (store_success true)
    (try_except_else_finally
       (s <- load_smtpserver ;; emit (ev_close s))
       [ (UnboundLocalError, fun _ => ret tt) ]
       (ret tt)
       (ret tt)).

(** [Mail.send].  The loop runs at most [retries] times, which is the fuel
    it is given. *)
Definition send (self : t) (retries : Z) : M bool :=
  store_tries 0 ;;
  let to := (Mail.to self ++ bcc self)%list in
  match to with
  | _ :: _ =>
      store_success false ;;
      while (Z.to_nat retries)
            (fun f => negb (success f) && (tries f <? retries))
            (send_attempt self to) ;;
      load success
  | [] =>
      print "No mail adresses given, no mails sent." ;;
      ret true
  end.

End Send.

(** The default of the [retries] argument. *)
Definition default_retries : Z := 3.

End Mail.

(** A call of [mail.send(retries)] from outside: nothing is bound yet and
    nothing has happened. *)
Definition fresh : frame :=
  {| tries := 0; success := false; smtpserver := None; world := [] |}.

Definition call_send (env : oracle) (self : Mail.t) (retries : Z)
  : frame * result bool :=
  Mail.send env self retries fresh.

(* ===================================================================== *)
(** ** Reading a trace *)
(* ===================================================================== *)

(** An attempt begins with the call [smtplib.SMTP(server)], and nothing
    else makes that call: the attempts of a trace are its [ev_SMTP]
    events. *)
Definition is_attempt (ev : event) : bool :=
  match ev with ev_SMTP _ => true | _ => false end.

Definition attempts (tr : list event) : nat := List.length (filter is_attempt tr).

(** The arguments of the [time.sleep] calls, in order. *)
Definition sleeps (tr : list event) : list Z :=
  flat_map (fun ev => match ev with ev_sleep s => [s] | _ => [] end) tr.

(** The printed lines, in order. *)
Definition printed (tr : list event) : list string :=
  flat_map (fun ev => match ev with ev_print s => [s] | _ => [] end) tr.

(** Envelope sender, recipients and message of every [sendmail] call. *)
Definition deliveries (tr : list event)
  : list (string * list string * MIMEMultipart) :=
  flat_map (fun ev => match ev with
                      | ev_sendmail _ a r m => [(a, r, m)]
                      | _ => []
                      end) tr.

(** The calls into [smtplib], without prints and sleeps. *)
Definition is_transport (ev : event) : bool :=
  match ev with ev_print _ | ev_sleep _ => false | _ => true end.

Definition transport (tr : list event) : list event := filter is_transport tr.

(** What can raise in the [try] block: a call into [smtplib], or the
    rendering of the message. *)
Inductive question : Set :=
| q_call (c : smtp_call)
| q_as_string.

Definition asked (env : oracle) (k : Z) (q : question) : option exn :=
  match q with
  | q_call c => env k c
  | q_as_string => as_string env
  end.

(** The steps of the attempt numbered [k], in program order, each with the
    event it leaves in the trace when it is begun (the rendering leaves
    none). *)
Definition calls_of (self : Mail.t) (to : list string) (k : Z)
  : list (question * list event) :=
  let s := Mail.sender self in
  [ (q_call c_SMTP, [ev_SMTP (MailSender.server s)]);
    (q_call c_ehlo1, [ev_ehlo k]);
    (q_call c_starttls, [ev_starttls k]);
    (q_call c_ehlo2, [ev_ehlo k]);
    (q_call c_login, [ev_login k (MailSender.user s) (MailSender.password s)]);
    (q_as_string, []);
    (q_call c_sendmail,
     [ev_sendmail k (MailSender.user s) to (Mail.msg self)]) ].

(** The events of the steps begun before, and including, the first one
    that raises. *)
Fixpoint upto_failure (env : oracle) (k : Z)
    (steps : list (question * list event)) : list event :=
  match steps with
  | [] => []
  | (q, evs) :: rest =>
      (evs ++ match asked env k q with
              | None => upto_failure env k rest
              | Some _ => []
              end)%list
  end.

(** What the first raising step of attempt [k] raises; [None] when all of
    them return. *)
Fixpoint first_raised (env : oracle) (k : Z) (steps : list question)
  : option exn :=
  match steps with
  | [] => None
  | q :: rest =>
      match asked env k q with
      | Some e => Some e
      | None => first_raised env k rest
      end
  end.

Definition failure (env : oracle) (k : Z) : option exn :=
  first_raised env k
    [ q_call c_SMTP; q_call c_ehlo1; q_call c_starttls; q_call c_ehlo2;
      q_call c_login; q_as_string; q_call c_sendmail ].

(** Attempt [k] succeeds. *)
Definition succeeds (env : oracle) (k : Z) : bool :=
  match failure env k with None => true | Some _ => false end.

(** Attempt [k] fails with an exception that one of the two [except]
    clauses of [send] names. *)
Definition caught (env : oracle) (k : Z) : bool :=
  match failure env k with
  | None => false
  | Some e => isinstance e OSError
  end.

(** The local [smtpserver] after attempt [k], when it was [old] before:
    rebound only if the constructor returned. *)
Definition srv_after (env : oracle) (k : Z) (old : option Z) : option Z :=
  match env k c_SMTP with
  | None => Some k
  | Some _ => old
  end.

(** What the [finally] block does with that local. *)
Definition closing (srv : option Z) : list event :=
  match srv with
  | Some conn => [ev_close conn]
  | None => []
  end.

(** What the [except] clauses do with the exception of attempt [k]. *)
Definition handled (env : oracle) (self : Mail.t) (k : Z) (e : exn)
  : list event :=
  if isinstance e SMTPAuthenticationError then
    [ev_print "Failed sending: Authentication Error"; ev_sleep k]
  else if isinstance e OSError then
    [ev_print (Mail.failed_sending env (Mail.to self) k e); ev_sleep (k ^ 2)]
  else [].

(** Everything one turn of the loop does. *)
Definition turn (env : oracle) (self : Mail.t) (to : list string) (k : Z)
    (old : option Z) : list event :=
  (upto_failure env k (calls_of self to k) ++
   match failure env k with Some e => handled env self k e | None => [] end ++
   closing (srv_after env k old))%list.

(** [n] turns in a row, the first numbered [k]. *)
Fixpoint turns (env : oracle) (self : Mail.t) (to : list string) (n : nat)
    (k : Z) (old : option Z) : list event :=
  match n with
  | O => []
  | S n' => (turn env self to k old ++
             turns env self to n' (k + 1) (srv_after env k old))%list
  end.

(** The frame and result that one turn of the loop leaves. *)
Definition after_attempt (env : oracle) (self : Mail.t) (to : list string)
    (f : frame) : frame * result unit :=
  let k := tries f in
  ({| tries := if caught env k then k + 1 else k;
      success := succeeds env k || success f;
      smtpserver := srv_after env k (smtpserver f);
      world := world f ++ turn env self to k (smtpserver f) |},
   match failure env k with
   | None => Return tt
   | Some e => if isinstance e OSError then Return tt else Raise e
   end).

(** How the loop that started at [tries = t] ended after [n] turns, given
    the final value [ok] of [success] and the result [r] of the loop. *)
Definition ending (env : oracle) (retries t : Z) (n : nat) (ok : bool)
    (r : result unit) : Prop :=
  (r = Return tt /\ ok = true /\ (1 <= n)%nat /\
   succeeds env (t + Z.of_nat n - 1) = true)
  \/
  (r = Return tt /\ ok = false /\ Z.of_nat n = Z.max 0 (retries - t) /\
   forall i, t <= i < t + Z.of_nat n -> caught env i = true)
  \/
  (exists e, r = Raise e /\ (1 <= n)%nat /\
             failure env (t + Z.of_nat n - 1) = Some e /\
             isinstance e OSError = false).

(** The one delivery [send] ever asks for: the login name as envelope
    sender, the list handed to the attempt as recipients, and the message
    of the [Mail]. *)
Definition the_delivery (self : Mail.t) (rcpt : list string)
  : string * list string * MIMEMultipart :=
  (MailSender.user (Mail.sender self), rcpt, Mail.msg self).

(** How a call of [send] that made [n] attempts ended: the last attempt
    succeeded, or the budget ran out on caught failures, or the last
    attempt raised what no [except] clause names. *)
Definition send_ending (env : oracle) (retries : Z) (n : nat)
    (r : result bool) : Prop :=
  (r = Return true /\ (1 <= n)%nat /\ succeeds env (Z.of_nat n - 1) = true)
  \/
  (r = Return false /\ Z.of_nat n = Z.max 0 retries /\
   forall i, 0 <= i < Z.of_nat n -> caught env i = true)
  \/
  (exists e, r = Raise e /\ (1 <= n)%nat /\
             failure env (Z.of_nat n - 1) = Some e /\
             isinstance e OSError = false).

(** The line that [send] prints for attempt [k] failing with [e]. *)
Definition log_line (env : oracle) (self : Mail.t) (k : Z) (e : exn) : string :=
  if isinstance e SMTPAuthenticationError
  then "Failed sending: Authentication Error"
  else Mail.failed_sending env (Mail.to self) k e.

(* ===================================================================== *)
(** ** Sample senders, mails and servers *)
(* ===================================================================== *)

(** The sender of the module's docstring. *)
Definition me : MailSender.t :=
  MailSender.__init__ "me@example.com" "s3cr3t" "smtp.example.com"
                      (Some "Me <me@example.com>") None.

(** A sender with a reply address and no display name. *)
Definition sender_a : MailSender.t :=
  MailSender.__init__ "me@example.com" "s3cr3t" "smtp.example.com"
                      None (Some "a").

Definition a_date : string := "Fri, 25 Sep 2020 15:41:09 +0200 (CEST)".

(** The object a constructor call returned. *)
Definition constructed (r : result Mail.t) : Mail.t :=
  match r with
  | Return m => m
  | _ => {| Mail.sender := me; Mail.msg := new_MIMEMultipart "mixed";
            Mail.to := []; Mail.bcc := [] |}
  end.

(** [Mail(me, ["x@example.com", "y@example.com"], "subject", "hello",
    custom_to_header="Team <team@example.com>")]. *)
Definition team_mail : Mail.t :=
  constructed
    (Mail.__init__ me (Some (a_list ["x@example.com"; "y@example.com"]))
                   "subject" "hello" None None None
                   (Some "Team <team@example.com>") "mixed" a_date).

(** [Mail(me, "recipient@example.com", "subject", "hello",
    bcc=["alice@example.com", "bob@example.com"])]. *)
Definition bcc_mail : Mail.t :=
  constructed
    (Mail.__init__ me (Some (a_str "recipient@example.com"))
                   "subject" "hello" None
                   (Some (a_list ["alice@example.com"; "bob@example.com"]))
                   None None "mixed" a_date).

(** [Mail(me, [])]. *)
Definition nobody_mail : Mail.t :=
  constructed
    (Mail.__init__ me (Some (a_list [])) "" "" None None None None "mixed" a_date).

(** A server with the given answers, for a message that the library
    renders (as it does the sample mails above) and an interpreter that
    copies the characters outside ASCII it is shown. *)
Definition serving (answers : Z -> smtp_call -> option exn) : oracle :=
  {| answer := answers; as_string := None; repr_others := fun run => run |}.

(** A server that accepts everything. *)
Definition env_ok : oracle := serving (fun _ _ => None).

(** A server that rejects the password, every time. *)
Definition env_auth : oracle :=
  serving (fun _ c =>
    match c with
    | c_login => Some (mk_exn SMTPAuthenticationError
                         "(535, b'5.7.8 Error: authentication failed')")
    | _ => None
    end).

(** No server listening, every time. *)
Definition env_refused : oracle :=
  serving (fun _ c =>
    match c with
    | c_SMTP => Some (mk_exn ConnectionRefusedError
                        "[Errno 111] Connection refused")
    | _ => None
    end).

(** No server listening at first; from the second attempt on all is well. *)
Definition env_refused_once : oracle :=
  serving (fun k c => if k =? 0 then env_refused k c else None).

(** A Python built without the ssl module: [starttls] raises RuntimeError,
    which is not an OSError. *)
Definition env_no_ssl : oracle :=
  serving (fun _ c =>
    match c with
    | c_starttls => Some (mk_exn RuntimeError
                            "No SSL support included in this Python")
    | _ => None
    end).

(** [Mail(me, "x@example.com", "subject\nBcc: eve@example.com", "hello")]:
    a subject with a line break and a header name after it. *)
Definition header_mail : Mail.t :=
  constructed
    (Mail.__init__ me (Some (a_str "x@example.com"))
                   ("subject" ++ String "010" "Bcc: eve@example.com") "hello"
                   None None None None "mixed" a_date).

(** A working server, and the [email] library at work on [header_mail]: it
    refuses to render the subject. *)
Definition env_embedded_header : oracle :=
  {| answer := fun _ _ => None;
     as_string :=
       Some (mk_exn HeaderParseError
               "header value appears to contain an embedded header: 'subject\nBcc: eve@example.com'");
     repr_others := fun run => run |}.

(** [Mail(me, [], bcc="alice@example.com")]: blind copies only. *)
Definition bcc_only_mail : Mail.t :=
  constructed
    (Mail.__init__ me (Some (a_list [])) "subject" "hello" None
                   (Some (a_str "alice@example.com")) None None "mixed" a_date).

(* ===================================================================== *)
(** ** More ways to read a trace *)
(* ===================================================================== *)

(** The connections that [close()] was called on, in order. *)
Definition closes (tr : list event) : list Z :=
  flat_map (fun ev => match ev with ev_close c => [c] | _ => [] end) tr.

(** The argument of the [time.sleep] call that follows attempt [k]: none
    when the attempt succeeds or raises what [send] does not catch. *)
Definition wait (env : oracle) (k : Z) : list Z :=
  match failure env k with
  | None => []
  | Some e => if isinstance e SMTPAuthenticationError then [k]
              else if isinstance e OSError then [k ^ 2] else []
  end.

(** The line that attempt [k] leaves on the output of a mail whose [to]
    attribute is [self_to]: none when the attempt succeeds or raises what
    [send] does not catch. *)
Definition said (env : oracle) (self_to : list string) (k : Z) : list string :=
  match failure env k with
  | None => []
  | Some e => if isinstance e SMTPAuthenticationError
              then ["Failed sending: Authentication Error"]
              else if isinstance e OSError
                   then [Mail.failed_sending env self_to k e] else []
  end.

(** The waits of the attempts [0 .. n-1]. *)
Definition waits (env : oracle) (n : nat) : list Z :=
  flat_map (fun i => wait env (Z.of_nat i)) (seq 0 n).

(* ===================================================================== *)
(** ** The command line *)
(* ===================================================================== *)

Module Cli.

(** What [argparser.parse_args()] returns.  [password] is the flag
    [-p]; [to] comes from [nargs="+"], [bcc] from [nargs="*"] (None when
    the option is absent), [attach] defaults to the empty list. *)
Record args : Set := {
  subject : string;
  content : string;
  server : string;
  user : string;
  password : bool;
  to : list string;
  bcc : option (list string);
  attach : list string;
  from_ : option string;
  reply_to : option string;
  dry_run : bool
}.

(** The machine the script runs on: the process environment, what
    [getpass(prompt)] gives (the typed text, or an exception), what
    [open(path, "rb")] followed by [read()] gives, the time text, and the
    SMTP server. *)
Record host : Type := {
  environ : string -> option string;
  getpass : string -> string + exn;
  read_file : string -> list byte + exn;
  now : string;
  smtp : oracle
}.

(** What the script does: all that [send] does, lines on stderr, the
    password prompt, the files it opens, and [print(mail)], which prints
    the library's rendering of the message. *)
Inductive effect : Set :=
| io (ev : event)
| to_stderr (line : string)
| asked (prompt : string)
| opened (path : string)
| printed_mail (m : MIMEMultipart).

(** How the script ends: it runs to its end, [sys.exit(code)] is called,
    or an exception reaches the top.  [no_fuel] is not a Python outcome
    (see [OutOfFuel]). *)
Inductive outcome : Set :=
| finished
| sys_exit (code : Z)
| uncaught (e : exn)
| no_fuel.

(** What [argparser.parse_args()], the first statement of [main], does
    with the command line: it returns the namespace, or it writes its usage
    or help text (not recorded here) and calls [sys.exit] itself, with the
    status that [argparse] chooses. *)
Inductive command_line : Set :=
| parsed (a : args)
| parse_exit (code : Z).

(** [os.path.basename] on a POSIX system: what follows the last slash. *)
Fixpoint basename (p : string) : string :=
  match p with
  | EmptyString => EmptyString
  | String c rest =>
      if Ascii.eqb c "/" then basename rest
      else if contains "/" rest then basename rest
      else String c rest
  end.

(** [d[key] = value] on a dict, which keeps its keys in insertion order: a
    key that is there keeps its place and gets the new value. *)
Fixpoint dict_set (d : list (string * list byte)) (key : string)
    (value : list byte) : list (string * list byte) :=
  match d with
  | [] => [(key, value)]
  | (k, v) :: rest =>
      if (k =? key)%string then (k, value) :: rest
      else (k, v) :: dict_set rest key value
  end.

(** [d.get(key)]. *)
Fixpoint dict_get (d : list (string * list byte)) (key : string)
  : option (list byte) :=
  match d with
  | [] => None
  | (k, v) :: rest => if (k =? key)%string then Some v else dict_get rest key
  end.

Definition password_prompt (a : args) : string :=
  format "Enter password for {} on {}: " [user a; server a].

Definition no_password : string :=
  "Error: -p/--password not given and environment variable MAIL_PASSWORD is empty".

(** The [if args.password: ... else: ...] block of [main]. *)
Definition resolve_password (a : args) (h : host)
  : list effect * (string + outcome) :=
  if password a then
    match getpass h (password_prompt a) with
    | inl typed => ([asked (password_prompt a)], inl typed)
    | inr e => ([asked (password_prompt a)], inr (uncaught e))
    end
  else
    match environ h "MAIL_PASSWORD" with
    | Some value => ([], inl value)
    | None => ([to_stderr no_password], inr (sys_exit 1))
    end.

(** The [for attachment in args.attach] loop of [main], entered with the
    dict built so far. *)
Fixpoint read_attachments (h : host) (paths : list string)
    (attachments : list (string * list byte))
  : list effect * (list (string * list byte) + outcome) :=
  match paths with
  | [] => ([], inl attachments)
  | attachment :: rest =>
      match read_file h attachment with
      | inl data =>
          let '(effs, r) :=
            read_attachments h rest
              (dict_set attachments (basename attachment) data) in
          (opened attachment :: effs, r)
      | inr err =>
          if isinstance err Exception
          then ([opened attachment; io (ev_print (exn_str err))],
                inr (sys_exit 1))
          else ([opened attachment], inr (uncaught err))
      end
  end.

(** The [Mail(...)] call of [main]. *)
Definition the_mail (a : args) (h : host) (password : string)
    (attachments : list (string * list byte)) : result Mail.t :=
  Mail.__init__
    (MailSender.__init__ (user a) password (server a) (from_ a) (reply_to a))
    (Some (a_list (to a))) (subject a) (content a) (Some attachments)
    (option_map a_list (bcc a)) None None "mixed" (now h).

(** [main()] from the namespace on.  [print(mail)] prints [str(mail)],
    which is [msg.as_string()] and may raise. *)
Definition after_parsing (a : args) (h : host) : list effect * outcome :=
  match resolve_password a h with
  | (effs1, inr o) => (effs1, o)
  | (effs1, inl password) =>
      match read_attachments h (attach a) [] with
      | (effs2, inr o) => ((effs1 ++ effs2)%list, o)
      | (effs2, inl attachments) =>
          match the_mail a h password attachments with
          | Return mail =>
              if dry_run a then
                match as_string (smtp h) with
                | None =>
                    ((effs1 ++ effs2 ++ [printed_mail (Mail.msg mail)])%list,
                     finished)
                | Some e => ((effs1 ++ effs2)%list, uncaught e)
                end
              else
                let '(f, r) := call_send (smtp h) mail Mail.default_retries in
                ((effs1 ++ effs2 ++ map io (world f))%list,
                 match r with
                 | Return _ => finished
                 | Raise e => uncaught e
                 | OutOfFuel => no_fuel
                 end)
          | Raise e => ((effs1 ++ effs2)%list, uncaught e)
          | OutOfFuel => ((effs1 ++ effs2)%list, no_fuel)
          end
      end
  end.

(** [main()]. *)
Definition main (cl : command_line) (h : host) : list effect * outcome :=
  match cl with
  | parse_exit code => ([], sys_exit code)
  | parsed a => after_parsing a h
  end.

(** The last lines of the module:
    [try: main() / except KeyboardInterrupt: print()]. *)
Definition script (cl : command_line) (h : host) : list effect * outcome :=
  match main cl h with
  | (effs, uncaught e) =>
      if isinstance e KeyboardInterrupt
      then ((effs ++ [io (ev_print "")])%list, finished)
      else (effs, uncaught e)
  | other => other
  end.

(** The exit status of the process. *)
Definition exit_status (o : outcome) : Z :=
  match o with
  | finished => 0
  | sys_exit code => code
  | uncaught _ => 1
  | no_fuel => 1
  end.

(** The calls into [smtplib] among the effects. *)
Definition network (effs : list effect) : list event :=
  flat_map (fun x => match x with
                     | io ev => if is_transport ev then [ev] else []
                     | _ => []
                     end) effs.

(** The files opened, in order. *)
Definition files_opened (effs : list effect) : list string :=
  flat_map (fun x => match x with opened p => [p] | _ => [] end) effs.

End Cli.

Coercion Cli.parsed : Cli.args >-> Cli.command_line.

(** [sendmail.py -m smtp.example.com -u me@example.com
     -t x@example.com -s hi -c hello -a /tmp/a/r.txt /tmp/b/r.txt]. *)
Definition cli_args : Cli.args :=
  {| Cli.subject := "hi"; Cli.content := "hello";
     Cli.server := "smtp.example.com"; Cli.user := "me@example.com";
     Cli.password := false; Cli.to := ["x@example.com"]; Cli.bcc := None;
     Cli.attach := ["/tmp/a/r.txt"; "/tmp/b/r.txt"];
     Cli.from_ := None; Cli.reply_to := None; Cli.dry_run := false |}.

(** The same with [-n]. *)
Definition cli_args_dry : Cli.args :=
  {| Cli.subject := "hi"; Cli.content := "hello";
     Cli.server := "smtp.example.com"; Cli.user := "me@example.com";
     Cli.password := false; Cli.to := ["x@example.com"]; Cli.bcc := None;
     Cli.attach := ["/tmp/a/r.txt"; "/tmp/b/r.txt"];
     Cli.from_ := None; Cli.reply_to := None; Cli.dry_run := true |}.

(** The same with [-p] and no attachment. *)
Definition cli_args_prompt : Cli.args :=
  {| Cli.subject := "hi"; Cli.content := "hello";
     Cli.server := "smtp.example.com"; Cli.user := "me@example.com";
     Cli.password := true; Cli.to := ["x@example.com"]; Cli.bcc := None;
     Cli.attach := []; Cli.from_ := None; Cli.reply_to := None;
     Cli.dry_run := false |}.

(** A machine with MAIL_PASSWORD set, both files present, and the SMTP
    server given. *)
Definition a_host (server : oracle) : Cli.host :=
  {| Cli.environ := fun name =>
       if (name =? "MAIL_PASSWORD")%string then Some "s3cr3t" else None;
     Cli.getpass := fun _ => inl "typed";
     Cli.read_file := fun path =>
       if (path =? "/tmp/a/r.txt")%string then inl [x01]
       else if (path =? "/tmp/b/r.txt")%string then inl [x02]
       else inr (mk_exn OSError
                   "[Errno 2] No such file or directory");
     Cli.now := a_date;
     Cli.smtp := server |}.

(** The same machine after the second file was removed. *)
Definition a_host_without_b : Cli.host :=
  {| Cli.environ := Cli.environ (a_host env_ok);
     Cli.getpass := Cli.getpass (a_host env_ok);
     Cli.read_file := fun path =>
       if (path =? "/tmp/a/r.txt")%string then inl [x01]
       else inr (mk_exn OSError "[Errno 2] No such file or directory");
     Cli.now := a_date;
     Cli.smtp := env_ok |}.

(** A server on which Ctrl-C is pressed during the login of the first
    attempt. *)
Definition env_interrupted : oracle :=
  serving (fun _ c =>
    match c with
    | c_login => Some (mk_exn KeyboardInterrupt "")
    | _ => None
    end).

(** A server that takes the connection and the password but refuses the
    recipients on the first attempt, and is gone on the second. *)
Definition env_stale : oracle :=
  serving (fun k c =>
    if k =? 0 then
      match c with
      | c_sendmail => Some (mk_exn SMTPRecipientsRefused "{}")
      | _ => None
      end
    else env_refused k c).

(* ===================================================================== *)
(** ** One attempt *)
(* ===================================================================== *)

Lemma auth_is_OSError (e : exn) :
  isinstance e SMTPAuthenticationError = true -> isinstance e OSError = true.
Proof.
  destruct e as [c s]; unfold isinstance; simpl.
  destruct c; vm_compute; congruence.
Qed.

Lemma send_attempt_eq (env : oracle) (self : Mail.t) (to : list string) (f : frame) :
  Mail.send_attempt env self to f = after_attempt env self to f.
Proof.
  unfold after_attempt, turn, handled, closing, srv_after, caught, succeeds.
  unfold failure, first_raised, calls_of, upto_failure, asked.
  unfold Mail.send_attempt, try_except_else_finally, Mail.send_try, Mail.smtp,
         Mail.render.
  unfold bind, load, emit, store_smtpserver, load_smtpserver, ret, raise; simpl.
  destruct (env (tries f) c_SMTP) as [e|]; simpl;
  [|destruct (env (tries f) c_ehlo1) as [e|]; simpl;
  [|destruct (env (tries f) c_starttls) as [e|]; simpl;
  [|destruct (env (tries f) c_ehlo2) as [e|]; simpl;
  [|destruct (env (tries f) c_login) as [e|]; simpl;
  [|destruct (as_string env) as [e|]; simpl;
  [|destruct (env (tries f) c_sendmail) as [e|]; simpl]]]]]].
  all: try (destruct (isinstance e SMTPAuthenticationError) eqn:Hauth; simpl;
            [rewrite (auth_is_OSError e Hauth)
            |destruct (isinstance e OSError); simpl]).
  all: unfold print, time_sleep, store_tries, store_success, bind, load, emit, ret; simpl.
  all: try (destruct (smtpserver f); simpl).
  all: repeat rewrite <- app_assoc; simpl; reflexivity.
Qed.

(* ===================================================================== *)
(** ** Traces of turns *)
(* ===================================================================== *)

Lemma attempts_app (a b : list event) :
  attempts (a ++ b) = (attempts a + attempts b)%nat.
Proof. unfold attempts. rewrite filter_app, length_app. reflexivity. Qed.

Lemma sleeps_app (a b : list event) : sleeps (a ++ b) = (sleeps a ++ sleeps b)%list.
Proof. apply flat_map_app. Qed.

Lemma printed_app (a b : list event) :
  printed (a ++ b) = (printed a ++ printed b)%list.
Proof. apply flat_map_app. Qed.

Lemma deliveries_app (a b : list event) :
  deliveries (a ++ b) = (deliveries a ++ deliveries b)%list.
Proof. apply flat_map_app. Qed.


Section Turns.

Variable env : oracle.
Variable self : Mail.t.
Variable rcpt : list string.

(** Splitting on the answers of the oracle for attempt [k]. *)
Ltac answers k :=
  unfold turn, handled, closing, srv_after, failure, first_raised, calls_of,
         upto_failure, asked;
  destruct (env k c_SMTP) as [?e|]; simpl;
  [|destruct (env k c_ehlo1) as [?e|]; simpl;
  [|destruct (env k c_starttls) as [?e|]; simpl;
  [|destruct (env k c_ehlo2) as [?e|]; simpl;
  [|destruct (env k c_login) as [?e|]; simpl;
  [|destruct (as_string env) as [?e|]; simpl;
  [|destruct (env k c_sendmail) as [?e|]; simpl]]]]]].

Ltac classes :=
  repeat match goal with
         | |- context [isinstance ?e ?c] => destruct (isinstance e c); simpl
         | |- context [closing ?s] => destruct s; simpl
         | |- context [match ?s with Some _ => _ | None => _ end] =>
             destruct s; simpl
         end.

Lemma attempts_turn k old : attempts (turn env self rcpt k old) = 1%nat.
Proof. answers k; classes; reflexivity. Qed.

Lemma attempts_turns n : forall k old,
  attempts (turns env self rcpt n k old) = n.
Proof.
  induction n as [|n IH]; intros k old; cbn [turns]; [reflexivity|].
  rewrite attempts_app, attempts_turn, IH. reflexivity.
Qed.

Lemma sleeps_turn k old :
  sleeps (turn env self rcpt k old) =
  match failure env k with
  | None => []
  | Some e => if isinstance e SMTPAuthenticationError then [k]
              else if isinstance e OSError then [k ^ 2] else []
  end.
Proof. answers k; classes; reflexivity. Qed.

Lemma printed_turn k old :
  printed (turn env self rcpt k old) =
  match failure env k with
  | None => []
  | Some e => if isinstance e SMTPAuthenticationError
              then ["Failed sending: Authentication Error"]
              else if isinstance e OSError
                   then [Mail.failed_sending env (Mail.to self) k e] else []
  end.
Proof. answers k; classes; reflexivity. Qed.

Lemma deliveries_turn k old :
  Forall (fun d => d = the_delivery self rcpt) (deliveries (turn env self rcpt k old)).
Proof.
  unfold the_delivery.
  answers k; classes; repeat constructor.
Qed.

Lemma deliveries_turns n : forall k old,
  Forall (fun d => d = the_delivery self rcpt) (deliveries (turns env self rcpt n k old)).
Proof.
  induction n as [|n IH]; intros k old; cbn [turns]; [constructor|].
  rewrite deliveries_app. apply Forall_app. split; [apply deliveries_turn|apply IH].
Qed.

Lemma deliveries_turn_ok k old :
  succeeds env k = true ->
  deliveries (turn env self rcpt k old) = [the_delivery self rcpt].
Proof.
  unfold succeeds, the_delivery.
  answers k; classes; intros H; try discriminate H; reflexivity.
Qed.

(** The turn numbered [k + j] inside [n] turns that start at [k]. *)
Lemma turns_split n : forall j k old, (j < n)%nat ->
  exists old', 
    turns env self rcpt n k old =
    (turns env self rcpt j k old ++
     turn env self rcpt (k + Z.of_nat j) old' ++
     turns env self rcpt (n - j - 1) (k + Z.of_nat j + 1)
           (srv_after env (k + Z.of_nat j) old'))%list.
Proof.
  induction n as [|n IH]; intros j k old Hj; [lia|].
  destruct j as [|j].
  - exists old. cbn [turns Z.of_nat Nat.sub app].
    rewrite Z.add_0_r, Nat.sub_0_r. reflexivity.
  - destruct (IH j (k + 1) (srv_after env k old)) as [old' E]; [lia|].
    exists old'.
    replace (k + Z.of_nat (S j)) with (k + 1 + Z.of_nat j) by lia.
    cbn [turns Nat.sub]. rewrite E, <- app_assoc. reflexivity.
Qed.

End Turns.

(* ===================================================================== *)
(** ** The loop *)
(* ===================================================================== *)

Section Loop.

Variable env : oracle.
Variable self : Mail.t.
Variable rcpt : list string.
Variable retries : Z.

Local Notation "'cond'" :=
  (fun f : frame => negb (success f) && (tries f <? retries)).
Local Notation "'body'" := (Mail.send_attempt env self rcpt).

Lemma while_stop fuel f :
  cond f = false -> while fuel cond body f = (f, Return tt).
Proof. intros H. destruct fuel; simpl in *; rewrite H; reflexivity. Qed.

Lemma while_step fuel f :
  cond f = true ->
  while (S fuel) cond body f =
  match after_attempt env self rcpt f with
  | (f', Return _) => while fuel cond body f'
  | (f', Raise e) => (f', Raise e)
  | (f', OutOfFuel) => (f', OutOfFuel)
  end.
Proof. intros H. simpl in *. rewrite H, send_attempt_eq. reflexivity. Qed.

(** The loop, started with [success] false and fuel for every turn that
    [retries] still allows, makes some number [n] of turns and ends in one
    of three ways: a turn succeeded, the budget ran out, or a turn raised
    what no [except] clause names. *)
Lemma while_spec : forall fuel f,
  success f = false ->
  (Z.to_nat (retries - tries f) <= fuel)%nat ->
  exists n : nat,
    world (fst (while fuel cond body f)) =
      (world f ++ turns env self rcpt n (tries f) (smtpserver f))%list /\
    Z.of_nat n <= Z.max 0 (retries - tries f) /\
    (forall i, tries f <= i < tries f + Z.of_nat n - 1 -> caught env i = true) /\
    ending env retries (tries f) n
           (success (fst (while fuel cond body f)))
           (snd (while fuel cond body f)).
Proof.
  induction fuel as [|fuel IH]; intros f Hs Hfuel.
  - (* no fuel: the budget is already used up *)
    rewrite while_stop by (rewrite Hs; simpl; apply Z.ltb_ge; lia).
    exists 0%nat. cbn [fst snd turns]. rewrite app_nil_r.
    repeat split; try lia.
    unfold ending. right; left. repeat split; try assumption; lia.
  - destruct (tries f <? retries) eqn:Hlt.
    2:{ rewrite while_stop by (rewrite Hs, Hlt; reflexivity).
        apply Z.ltb_ge in Hlt.
        exists 0%nat. cbn [fst snd turns]. rewrite app_nil_r.
        repeat split; try lia.
        unfold ending. right; left. repeat split; try assumption; lia. }
    apply Z.ltb_lt in Hlt.
    rewrite while_step by (rewrite Hs; simpl; apply Z.ltb_lt; exact Hlt).
    unfold after_attempt, caught, succeeds.
    destruct (failure env (tries f)) as [e|] eqn:Hfail.
    + destruct (isinstance e OSError) eqn:Hos.
      * (* a failure that was caught: the loop goes on *)
        set (f1 := {| tries := tries f + 1;
                      success := false || success f;
                      smtpserver := srv_after env (tries f) (smtpserver f);
                      world := world f ++ turn env self rcpt (tries f) (smtpserver f) |}).
        destruct (IH f1) as (n & Hw & Hn & Hc & He);
          [exact Hs | simpl; lia |].
        exists (S n). cbn [tries smtpserver world f1] in *.
        split; [rewrite Hw; cbn [turns]; rewrite app_assoc; reflexivity|].
        split; [lia|].
        assert (Hk : caught env (tries f) = true)
          by (unfold caught; rewrite Hfail; exact Hos).
        split.
        { intros i Hi. destruct (Z.eq_dec i (tries f)) as [->|Hne];
            [exact Hk | apply Hc; lia]. }
        unfold ending in He |- *.
        replace (tries f + Z.of_nat (S n) - 1)
          with (tries f + 1 + Z.of_nat n - 1) by lia.
        destruct He as [(Hr & Hok & H1 & Hsuc)|[(Hr & Hok & Hex & Hall)|(e' & Hr & H1 & Hf' & Hno)]].
        -- left. repeat split; try assumption; lia.
        -- right; left. repeat split; try assumption; [lia|].
           intros i Hi. destruct (Z.eq_dec i (tries f)) as [->|Hne];
             [exact Hk | apply Hall; lia].
        -- right; right. exists e'. repeat split; try assumption; lia.
      * (* a failure that no clause names: it leaves the loop *)
        exists 1%nat. cbn [fst snd tries smtpserver world success turns].
        rewrite app_nil_r.
        split; [reflexivity|]. split; [lia|]. split; [intros i Hi; lia|].
        unfold ending. right; right. exists e.
        replace (tries f + Z.of_nat 1 - 1) with (tries f) by lia.
        repeat split; try assumption; lia.
    + (* the attempt succeeded: [success] ends the loop *)
      rewrite while_stop by reflexivity.
      exists 1%nat. cbn [fst snd tries smtpserver world success turns].
      rewrite app_nil_r.
      split; [reflexivity|]. split; [lia|]. split; [intros i Hi; lia|].
      unfold ending. left.
      replace (tries f + Z.of_nat 1 - 1) with (tries f) by lia.
      unfold succeeds; rewrite Hfail.
      repeat split; lia.
Qed.

End Loop.

(** A call of [send] with at least one recipient is the loop, run from the
    frame in which [tries] and [success] have just been set. *)
Lemma call_send_loop (env : oracle) (self : Mail.t) (retries : Z) :
  (Mail.to self ++ Mail.bcc self)%list <> [] ->
  call_send env self retries =
  let lp := while (Z.to_nat retries)
                  (fun f => negb (success f) && (tries f <? retries))
                  (Mail.send_attempt env self (Mail.to self ++ Mail.bcc self))
                  fresh in
  (fst lp, match snd lp with
           | Return _ => Return (success (fst lp))
           | Raise e => Raise e
           | OutOfFuel => OutOfFuel
           end).
Proof.
  intros Hto. unfold call_send, Mail.send.
  destruct (Mail.to self ++ Mail.bcc self)%list as [|a rcpt]; [congruence|].
  unfold bind, store_tries, store_success, load, fresh; cbn [tries success smtpserver world].
  destruct (while _ _ _ _) as [f' [u|e|]]; reflexivity.
Qed.

(** How a call of [send] with at least one recipient goes: the trace is a
    number of whole turns, numbered from 0 and each but the last a caught
    failure, and the result tells how the last one ended. *)
Lemma send_spec (env : oracle) (self : Mail.t) (retries : Z) :
  (Mail.to self ++ Mail.bcc self)%list <> [] ->
  exists n : nat,
    world (fst (call_send env self retries)) =
      turns env self (Mail.to self ++ Mail.bcc self) n 0 None /\
    Z.of_nat n <= Z.max 0 retries /\
    (forall i, 0 <= i < Z.of_nat n - 1 -> caught env i = true) /\
    send_ending env retries n (snd (call_send env self retries)).
Proof.
  intros Hto. rewrite (call_send_loop env self retries Hto). cbv zeta.
  destruct (while_spec env self (Mail.to self ++ Mail.bcc self) retries
                       (Z.to_nat retries) fresh)
    as (n & Hw & Hn & Hc & He); [reflexivity | simpl; lia |].
  unfold ending in He.
  cbn [tries smtpserver world fresh app] in Hw, Hn, Hc, He.
  rewrite ?Z.sub_0_r, ?Z.add_0_l in Hn, He.
  exists n.
  destruct (while _ _ _ fresh) as [f' r]. cbn [fst snd] in *.
  destruct He as [(Hr & Hok & H1 & Hsuc)|[(Hr & Hok & Hex & Hall)|(e' & Hr & H1 & Hf' & Hno)]];
    subst r; cbv beta iota; unfold send_ending.
  - split; [exact Hw|]. split; [lia|]. split; [intros; apply Hc; lia|].
    left. rewrite Hok. repeat split; assumption.
  - split; [exact Hw|]. split; [lia|]. split; [intros; apply Hc; lia|].
    right; left. rewrite Hok. repeat split; assumption.
  - split; [exact Hw|]. split; [lia|]. split; [intros; apply Hc; lia|].
    right; right. exists e'. repeat split; assumption.
Qed.

(* ===================================================================== *)
(** ** Consequences shared by the properties below *)
(* ===================================================================== *)

Lemma caught_not_succeeds (env : oracle) (k : Z) :
  caught env k = true -> succeeds env k = false.
Proof.
  unfold caught, succeeds. destruct (failure env k); [reflexivity|discriminate].
Qed.

Lemma caught_failure (env : oracle) (k : Z) (e : exn) :
  failure env k = Some e -> isinstance e OSError = true -> caught env k = true.
Proof. intros Hf Hos. unfold caught. rewrite Hf. exact Hos. Qed.

(** An attempt whose predecessors were all caught failures, and which the
    budget allows, is made. *)
Lemma send_reaches (env : oracle) (retries : Z) (n : nat) (r : result bool) (k : Z) :
  send_ending env retries n r ->
  (forall i, 0 <= i < Z.of_nat n - 1 -> caught env i = true) ->
  0 <= k < retries ->
  (forall i, 0 <= i < k -> caught env i = true) ->
  k < Z.of_nat n.
Proof.
  intros He Hc Hk Hbefore.
  destruct (Z_lt_le_dec k (Z.of_nat n)) as [Hlt|Hge]; [exact Hlt|exfalso].
  destruct He as [(_ & H1 & Hsuc)|[(_ & Hex & _)|(e & _ & H1 & Hf & Hno)]].
  - rewrite caught_not_succeeds in Hsuc by (apply Hbefore; lia). discriminate.
  - lia.
  - assert (Hcaught : caught env (Z.of_nat n - 1) = true) by (apply Hbefore; lia).
    unfold caught in Hcaught. rewrite Hf in Hcaught. congruence.
Qed.

Lemma attempts_calls (env : oracle) (self : Mail.t) (rcpt : list string) (k : Z) :
  attempts (upto_failure env k (calls_of self rcpt k)) = 1%nat.
Proof.
  unfold calls_of, upto_failure, asked.
  destruct (env k c_SMTP), (env k c_ehlo1), (env k c_starttls),
           (env k c_ehlo2), (env k c_login), (as_string env),
           (env k c_sendmail); reflexivity.
Qed.

Lemma attempts_closing (srv : option Z) : attempts (closing srv) = 0%nat.
Proof. destruct srv; reflexivity. Qed.

(** The trace of a call around the attempt numbered [k]. *)
Lemma send_turn_at (env : oracle) (self : Mail.t) (retries k : Z) :
  (Mail.to self ++ Mail.bcc self)%list <> [] ->
  0 <= k < retries ->
  (forall i, 0 <= i < k -> caught env i = true) ->
  exists (n : nat) (old : option Z),
    let rcpt := (Mail.to self ++ Mail.bcc self)%list in
    world (fst (call_send env self retries)) =
      (turns env self rcpt (Z.to_nat k) 0 None ++
       turn env self rcpt k old ++
       turns env self rcpt (n - Z.to_nat k - 1) (k + 1) (srv_after env k old))%list /\
    k < Z.of_nat n /\
    Z.of_nat n <= retries /\
    (forall i, 0 <= i < Z.of_nat n - 1 -> caught env i = true) /\
    send_ending env retries n (snd (call_send env self retries)).
Proof.
  intros Hto Hk Hbefore.
  destruct (send_spec env self retries Hto) as (n & Hw & Hn & Hc & He).
  assert (Hlt : k < Z.of_nat n) by (eapply send_reaches; eassumption).
  destruct (turns_split env self (Mail.to self ++ Mail.bcc self) n
                        (Z.to_nat k) 0 None) as [old E]; [lia|].
  exists n, old. cbv zeta.
  rewrite Hw, E.
  replace (0 + Z.of_nat (Z.to_nat k)) with k by lia.
  repeat split; try assumption; lia.
Qed.

(** With no recipient at all, [send] prints its notice and returns. *)
Lemma call_send_nobody (env : oracle) (self : Mail.t) (retries : Z) :
  (Mail.to self ++ Mail.bcc self)%list = [] ->
  call_send env self retries =
  ({| tries := 0; success := false; smtpserver := None;
      world := [ev_print "No mail adresses given, no mails sent."] |},
   Return true).
Proof.
  intros Hto. unfold call_send, Mail.send. rewrite Hto. reflexivity.
Qed.

(** The fuel that [send] gives its loop is always enough. *)
Lemma send_terminates (env : oracle) (self : Mail.t) (retries : Z) :
  snd (call_send env self retries) <> OutOfFuel.
Proof.
  destruct (Mail.to self ++ Mail.bcc self)%list as [|a l] eqn:E.
  - rewrite call_send_nobody by exact E. discriminate.
  - assert (Hto : (Mail.to self ++ Mail.bcc self)%list <> []) by congruence.
    destruct (send_spec env self retries Hto) as (n & _ & _ & _ & He).
    destruct He as [(Hr & _)|[(Hr & _)|(e & Hr & _)]]; rewrite Hr; discriminate.
Qed.

(** Whatever happens, a [sendmail] call has the login name as envelope
    sender and [to + bcc] as recipients. *)
Lemma deliveries_call_send (env : oracle) (self : Mail.t) (retries : Z) :
  Forall (fun d => d = the_delivery self (Mail.to self ++ Mail.bcc self))
         (deliveries (world (fst (call_send env self retries)))).
Proof.
  destruct (Mail.to self ++ Mail.bcc self)%list as [|a l] eqn:E.
  - rewrite call_send_nobody by exact E. constructor.
  - assert (Hto : (Mail.to self ++ Mail.bcc self)%list <> []) by congruence.
    destruct (send_spec env self retries Hto) as (n & Hw & _).
    rewrite Hw, E. apply deliveries_turns.
Qed.

(** When the first attempt succeeds there is exactly one delivery. *)
Lemma deliveries_first_ok (env : oracle) (self : Mail.t) (retries : Z) :
  (Mail.to self ++ Mail.bcc self)%list <> [] ->
  0 < retries ->
  succeeds env 0 = true ->
  deliveries (world (fst (call_send env self retries))) =
  [the_delivery self (Mail.to self ++ Mail.bcc self)].
Proof.
  intros Hto Hr Hok.
  destruct (send_spec env self retries Hto) as (n & Hw & Hn & Hc & He).
  assert (H0 : 0 < Z.of_nat n).
  { eapply send_reaches; try eassumption; [lia|intros; lia]. }
  assert (n = 1%nat) as ->.
  { destruct n as [|[|n]]; [lia|reflexivity|].
    rewrite caught_not_succeeds in Hok by (apply Hc; lia). discriminate. }
  rewrite Hw. cbn [turns]. rewrite app_nil_r.
  apply deliveries_turn_ok. exact Hok.
Qed.

(** The text of the line printed for a transport error. *)
Lemma failed_sending_text (env : oracle) (l : list string) (k : Z) (e : exn) :
  0 <= k ->
  Mail.failed_sending env l k e =
  "Failed sending to <" ++ str_list (repr_others env) l ++ "> " ++
  (if k =? 0 then "once" else if k =? 1 then "twice"
   else str_int (k + 1) ++ " times") ++
  ": " ++ exn_str e ++ " (waiting " ++ str_int (k ^ 2) ++ "s)".
Proof.
  intros Hk. unfold Mail.failed_sending.
  assert (Hord : Mail.ordinal k =
                 if k =? 0 then "once" else if k =? 1 then "twice"
                 else str_int (k + 1) ++ " times").
  { unfold Mail.ordinal.
    destruct (Z.eqb_spec k 0) as [->|H0]; [reflexivity|].
    destruct (Z.eqb_spec k 1) as [->|H1]; [reflexivity|].
    rewrite Z.min_r by lia. reflexivity. }
  rewrite Hord. reflexivity.
Qed.

(* ===================================================================== *)
(** ** The retry loop of [send] *)
(* ===================================================================== *)




(** C3, as stated, fails when "the recipient list" is the list the mail
    goes to: the line names [self.to] only.  For a mail with blind copies
    only, whose one recipient is alice, the line says that sending to the
    empty list failed. *)
Lemma failure_line_leaves_bcc_out :
  (Mail.to bcc_only_mail ++ Mail.bcc bcc_only_mail)%list = ["alice@example.com"] /\
  printed (world (fst (call_send env_refused bcc_only_mail 1))) =
    ["Failed sending to <[]> once: [Errno 111] Connection refused (waiting 0s)"] /\
  printed (world (fst (call_send env_refused bcc_only_mail 1))) <>
    ["Failed sending to <['alice@example.com']> once: [Errno 111] Connection refused (waiting 0s)"].
Proof.
  split; [reflexivity|]. split; [vm_compute; reflexivity|].
  vm_compute. discriminate.
Qed.

(** C3, amended.  An attempt (numbered [k] from 0, within the budget, all
    earlier attempts having failed and been caught) that fails with an
    OSError other than an authentication error: right after the steps of
    that attempt a line is printed and then [time.sleep(k ** 2)] is called.
    The line names the [to] list of the mail as [str] writes it (the blind
    copies are not in it), "once" for [k = 0], "twice" for [k = 1] and
    "<k+1> times" from the third attempt on, the text of the error, and the
    wait [k ** 2]. *)
Theorem transport_error_backoff (env : oracle) (self : Mail.t) (retries k : Z) (e : exn) :
  (Mail.to self ++ Mail.bcc self)%list <> [] ->
  0 <= k < retries ->
  (forall i, 0 <= i < k -> caught env i = true) ->
  failure env k = Some e ->
  isinstance e OSError = true ->
  isinstance e SMTPAuthenticationError = false ->
  exists before post,
    world (fst (call_send env self retries)) =
      (before ++
       upto_failure env k (calls_of self (Mail.to self ++ Mail.bcc self) k) ++
       [ev_print
          ("Failed sending to <" ++
           str_list (repr_others env) (Mail.to self) ++ "> " ++
           (if k =? 0 then "once" else if k =? 1 then "twice"
            else str_int (k + 1) ++ " times") ++
           ": " ++ exn_str e ++ " (waiting " ++ str_int (k ^ 2) ++ "s)");
        ev_sleep (k ^ 2)] ++
       post)%list /\
    Z.of_nat (attempts before) = k.
Proof.
  intros Hto Hk Hbefore Hf Hos Hauth.
  destruct (send_turn_at env self retries k Hto Hk Hbefore)
    as (n & old & Hw & Hlt & Hn & Hc & He).
  cbv zeta in Hw. unfold turn at 1 in Hw. rewrite Hf in Hw.
  unfold handled in Hw. rewrite Hauth, Hos in Hw.
  rewrite failed_sending_text in Hw by lia.
  exists (turns env self (Mail.to self ++ Mail.bcc self) (Z.to_nat k) 0 None).
  exists (closing (srv_after env k old) ++
          turns env self (Mail.to self ++ Mail.bcc self)
                (n - Z.to_nat k - 1) (k + 1) (srv_after env k old))%list.
  split.
  - rewrite Hw. f_equal. rewrite <- app_assoc. f_equal.
  - rewrite attempts_turns. lia.
Qed.

(** C3 amended, on a host where nothing listens: the third attempt
    (k = 2) of the mail to x and y prints "3 times" and waits 4 seconds. *)
Lemma transport_error_backoff_witness :
  (Mail.to team_mail ++ Mail.bcc team_mail)%list <> [] /\
  0 <= 2 < 3 /\
  failure env_refused 2 =
    Some (mk_exn ConnectionRefusedError "[Errno 111] Connection refused") /\
  exists before post,
    world (fst (call_send env_refused team_mail 3)) =
      (before ++
       [ev_SMTP "smtp.example.com";
        ev_print "Failed sending to <['x@example.com', 'y@example.com']> 3 times: [Errno 111] Connection refused (waiting 4s)";
        ev_sleep 4] ++ post)%list /\
    Z.of_nat (attempts before) = 2.
Proof.
  assert (H1 : (Mail.to team_mail ++ Mail.bcc team_mail)%list <> [])
    by (vm_compute; discriminate).
  assert (H2 : 0 <= 2 < 3) by lia.
  assert (H3 : forall i, 0 <= i < 2 -> caught env_refused i = true)
    by (intros i _; reflexivity).
  split; [exact H1|]. split; [exact H2|]. split; [reflexivity|].
  exact (transport_error_backoff env_refused team_mail 3 2
           (mk_exn ConnectionRefusedError "[Errno 111] Connection refused")
           H1 H2 H3 eq_refl eq_refl eq_refl).
Defined.

(** C4.  An attempt (numbered [k] from 0, within the budget, all earlier
    attempts having failed and been caught) that fails with an
    authentication error: right after its calls the fixed line is printed
    and [time.sleep(k)] is called, so the wait is the attempt index itself.
    The attempt counts against the budget: when it was not the last one
    allowed, another attempt follows; when it was, [send] returns False and
    no attempt follows. *)
Theorem authentication_error_backoff (env : oracle) (self : Mail.t) (retries k : Z) (e : exn) :
  (Mail.to self ++ Mail.bcc self)%list <> [] ->
  0 <= k < retries ->
  (forall i, 0 <= i < k -> caught env i = true) ->
  failure env k = Some e ->
  isinstance e SMTPAuthenticationError = true ->
  exists before post,
    world (fst (call_send env self retries)) =
      (before ++
       upto_failure env k (calls_of self (Mail.to self ++ Mail.bcc self) k) ++
       [ev_print "Failed sending: Authentication Error"; ev_sleep k] ++
       post)%list /\
    Z.of_nat (attempts before) = k /\
    (k + 1 < retries -> (1 <= attempts post)%nat) /\
    (k + 1 = retries ->
     attempts post = 0%nat /\ snd (call_send env self retries) = Return false).
Proof.
  intros Hto Hk Hbefore Hf Hauth.
  pose proof (auth_is_OSError e Hauth) as Hos.
  pose proof (caught_failure env k e Hf Hos) as Hcaught.
  destruct (send_turn_at env self retries k Hto Hk Hbefore)
    as (n & old & Hw & Hlt & Hn & Hc & He).
  cbv zeta in Hw. unfold turn at 1 in Hw. rewrite Hf in Hw.
  unfold handled in Hw. rewrite Hauth in Hw.
  exists (turns env self (Mail.to self ++ Mail.bcc self) (Z.to_nat k) 0 None).
  exists (closing (srv_after env k old) ++
          turns env self (Mail.to self ++ Mail.bcc self)
                (n - Z.to_nat k - 1) (k + 1) (srv_after env k old))%list.
  split; [rewrite Hw; f_equal; rewrite <- app_assoc; f_equal|].
  split; [rewrite attempts_turns; lia|].
  rewrite attempts_app, attempts_closing, attempts_turns.
  split.
  - intros Hnext.
    assert (k + 1 < Z.of_nat n).
    { eapply send_reaches; try eassumption; [lia|].
      intros i Hi. destruct (Z.eq_dec i k) as [->|Hne];
        [exact Hcaught|apply Hbefore; lia]. }
    lia.
  - intros Hlast. split; [lia|].
    assert (En : Z.of_nat n - 1 = k) by lia.
    destruct He as [(Hr & H1 & Hsuc)|[(Hr & _)|(e' & Hr & H1 & Hf' & Hno)]].
    + rewrite En, caught_not_succeeds in Hsuc by exact Hcaught. discriminate.
    + exact Hr.
    + rewrite En, Hf in Hf'. congruence.
Qed.

(** C4, on a server that rejects the password: the second attempt (k = 1)
    waits one second and a third attempt follows. *)
Lemma authentication_error_backoff_witness :
  (Mail.to bcc_mail ++ Mail.bcc bcc_mail)%list <> [] /\
  0 <= 1 < 3 /\
  isinstance (mk_exn SMTPAuthenticationError
                "(535, b'5.7.8 Error: authentication failed')")
             SMTPAuthenticationError = true /\
  exists before post,
    world (fst (call_send env_auth bcc_mail 3)) =
      (before ++
       [ev_SMTP "smtp.example.com"; ev_ehlo 1; ev_starttls 1; ev_ehlo 1;
        ev_login 1 "me@example.com" "s3cr3t";
        ev_print "Failed sending: Authentication Error"; ev_sleep 1] ++
       post)%list /\
    Z.of_nat (attempts before) = 1 /\
    (1 + 1 < 3 -> (1 <= attempts post)%nat) /\
    (1 + 1 = 3 ->
     attempts post = 0%nat /\ snd (call_send env_auth bcc_mail 3) = Return false).
Proof.
  assert (H1 : (Mail.to bcc_mail ++ Mail.bcc bcc_mail)%list <> [])
    by (vm_compute; discriminate).
  assert (H2 : 0 <= 1 < 3) by lia.
  assert (H3 : forall i, 0 <= i < 1 -> caught env_auth i = true)
    by (intros i _; reflexivity).
  split; [exact H1|]. split; [exact H2|]. split; [reflexivity|].
  exact (authentication_error_backoff env_auth bcc_mail 3 1
           (mk_exn SMTPAuthenticationError
                   "(535, b'5.7.8 Error: authentication failed')")
           H1 H2 H3 eq_refl eq_refl).
Defined.

(** C9, as stated, fails: on a server that rejects the password three
    times, [send] sleeps a third time, for 2 seconds, after the third and
    last attempt. *)
Lemma third_wait_after_last_attempt :
  sleeps (world (fst (call_send env_auth bcc_mail 3))) <> [0; 1] /\
  sleeps (world (fst (call_send env_auth bcc_mail 3))) = [0; 1; 2] /\
  exists before,
    world (fst (call_send env_auth bcc_mail 3)) =
      (before ++ [ev_sleep 2; ev_close 2])%list /\
    attempts before = 3%nat.
Proof.
  split; [vm_compute; discriminate|].
  split; [vm_compute; reflexivity|].
  eexists. split; [vm_compute; rewrite <- (firstn_skipn 22) at 1; reflexivity|].
  vm_compute. reflexivity.
Qed.

(** C9, amended.  With [retries=3] and every attempt failing with an
    authentication error, [send] returns False after exactly 3 attempts.
    Every failed attempt is followed by a wait: 0 and 1 second between the
    attempts and 2 seconds after the third, after which nothing but the
    closing of the connection happens. *)
Theorem three_auth_failures (env : oracle) (self : Mail.t) :
  (Mail.to self ++ Mail.bcc self)%list <> [] ->
  (forall k, 0 <= k < 3 ->
     exists e, failure env k = Some e /\
               isinstance e SMTPAuthenticationError = true) ->
  snd (call_send env self 3) = Return false /\
  attempts (world (fst (call_send env self 3))) = 3%nat /\
  sleeps (world (fst (call_send env self 3))) = [0; 1; 2] /\
  exists before after,
    world (fst (call_send env self 3)) = (before ++ ev_sleep 2 :: after)%list /\
    attempts before = 3%nat /\
    sleeps before = [0; 1] /\
    transport after = after /\ attempts after = 0%nat.
Proof.
  intros Hto Hall.
  assert (Hcaught : forall i, 0 <= i < 3 -> caught env i = true).
  { intros i Hi. destruct (Hall i Hi) as (e & Hf & Hauth).
    eapply caught_failure; [exact Hf|apply auth_is_OSError; exact Hauth]. }
  destruct (send_spec env self 3 Hto) as (n & Hw & Hn & Hc & He).
  assert (Hn3 : n = 3%nat).
  { assert (2 < Z.of_nat n)
      by (eapply send_reaches; try eassumption; [lia|intros; apply Hcaught; lia]).
    lia. }
  subst n.
  assert (Hr : snd (call_send env self 3) = Return false).
  { destruct He as [(_ & _ & Hsuc)|[(Hr & _)|(e & _ & _ & Hf & Hno)]].
    - rewrite caught_not_succeeds in Hsuc by (apply Hcaught; lia). discriminate.
    - exact Hr.
    - pose proof (Hcaught (Z.of_nat 3 - 1) ltac:(lia)) as Hk.
      unfold caught in Hk. rewrite Hf in Hk. congruence. }
  destruct (Hall 0 ltac:(lia)) as (e0 & Hf0 & Ha0).
  destruct (Hall 1 ltac:(lia)) as (e1 & Hf1 & Ha1).
  destruct (Hall 2 ltac:(lia)) as (e2 & Hf2 & Ha2).
  split; [exact Hr|].
  split; [rewrite Hw; apply attempts_turns|].
  split.
  { rewrite Hw. cbn [turns]. rewrite !sleeps_app, !sleeps_turn.
    cbn [Z.add Pos.add Pos.succ]. rewrite Hf0, Hf1, Hf2, Ha0, Ha1, Ha2.
    reflexivity. }
  rewrite Hw. cbn [turns]. cbn [Z.add Pos.add Pos.succ]. rewrite app_nil_r.
  set (s1 := srv_after env 0 None). set (s2 := srv_after env 1 s1).
  exists (turn env self (Mail.to self ++ Mail.bcc self) 0 None ++
          turn env self (Mail.to self ++ Mail.bcc self) 1 s1 ++
          upto_failure env 2 (calls_of self (Mail.to self ++ Mail.bcc self) 2) ++
          [ev_print "Failed sending: Authentication Error"])%list.
  exists (closing (srv_after env 2 s2)).
  split.
  { unfold turn at 3. rewrite Hf2. unfold handled. rewrite Ha2.
    rewrite <- !app_assoc. reflexivity. }
  split.
  { rewrite !attempts_app, !attempts_turn, attempts_calls. reflexivity. }
  split.
  { rewrite !sleeps_app, !sleeps_turn, Hf0, Hf1, Ha0, Ha1.
    assert (Hno : sleeps (upto_failure env 2 (calls_of self
                    (Mail.to self ++ Mail.bcc self) 2)) = []).
    { unfold calls_of, upto_failure, asked.
      destruct (env 2 c_SMTP), (env 2 c_ehlo1), (env 2 c_starttls),
               (env 2 c_ehlo2), (env 2 c_login), (as_string env),
               (env 2 c_sendmail); reflexivity. }
    rewrite Hno. reflexivity. }
  destruct (srv_after env 2 s2); split; reflexivity.
Qed.

(** C9 amended, on the server that rejects the password. *)
Lemma three_auth_failures_witness :
  (Mail.to bcc_mail ++ Mail.bcc bcc_mail)%list <> [] /\
  snd (call_send env_auth bcc_mail 3) = Return false /\
  attempts (world (fst (call_send env_auth bcc_mail 3))) = 3%nat /\
  sleeps (world (fst (call_send env_auth bcc_mail 3))) = [0; 1; 2].
Proof.
  assert (H1 : (Mail.to bcc_mail ++ Mail.bcc bcc_mail)%list <> [])
    by (vm_compute; discriminate).
  assert (H2 : forall k, 0 <= k < 3 ->
            exists e, failure env_auth k = Some e /\
                      isinstance e SMTPAuthenticationError = true).
  { intros k _. eexists. split; reflexivity. }
  pose proof (three_auth_failures env_auth bcc_mail H1 H2) as (Hr & Ha & Hs & _).
  split; [exact H1|]. split; [exact Hr|]. split; [exact Ha|exact Hs].
Defined.

(* ===================================================================== *)
(** ** What [send] lets through *)
(* ===================================================================== *)

(** C6, as stated, fails: where Python has no ssl module, [starttls]
    raises RuntimeError; no [except] clause of [send] names it, so after
    the connection is closed it reaches the caller, on the first attempt.
    So does the HeaderParseError that [msg.as_string()] raises for a
    subject with a line break and a header name after it, before [sendmail]
    is called. *)
Lemma runtime_error_propagates :
  (snd (call_send env_no_ssl team_mail 3) =
     Raise (mk_exn RuntimeError "No SSL support included in this Python") /\
   world (fst (call_send env_no_ssl team_mail 3)) =
     [ev_SMTP "smtp.example.com"; ev_ehlo 0; ev_starttls 0; ev_close 0]) /\
  (snd (call_send env_embedded_header header_mail 3) =
     Raise (mk_exn HeaderParseError
                   "header value appears to contain an embedded header: 'subject\nBcc: eve@example.com'") /\
   world (fst (call_send env_embedded_header header_mail 3)) =
     [ev_SMTP "smtp.example.com"; ev_ehlo 0; ev_starttls 0; ev_ehlo 0;
      ev_login 0 "me@example.com" "s3cr3t"; ev_close 0]).
Proof. repeat split; vm_compute; reflexivity. Qed.

(** C6, amended.  When every exception that is raised in an attempt that
    [send] makes (by a call into the library or by the rendering of the
    message) is an OSError (authentication errors are), [send] returns a
    boolean: nothing propagates.  It returns False only when there were
    recipients and the whole budget was spent on failed attempts; and every
    failed attempt left its line on the output. *)
Theorem send_swallows_OSErrors (env : oracle) (self : Mail.t) (retries : Z) :
  (forall k e,
     0 <= k < retries ->
     (forall i, 0 <= i < k -> caught env i = true) ->
     failure env k = Some e ->
     isinstance e OSError = true) ->
  exists b,
    snd (call_send env self retries) = Return b /\
    (b = false ->
     (Mail.to self ++ Mail.bcc self)%list <> [] /\
     Z.of_nat (attempts (world (fst (call_send env self retries)))) = Z.max 0 retries /\
     forall i, 0 <= i < Z.max 0 retries -> caught env i = true) /\
    (forall i e,
       (i < attempts (world (fst (call_send env self retries))))%nat ->
       failure env (Z.of_nat i) = Some e ->
       In (log_line env self (Z.of_nat i) e)
          (printed (world (fst (call_send env self retries))))).
Proof.
  intros Hos.
  destruct (Mail.to self ++ Mail.bcc self)%list as [|a l] eqn:E.
  { rewrite call_send_nobody by exact E. exists true. cbn [fst snd world].
    split; [reflexivity|]. split; [discriminate|].
    intros i e Hi. vm_compute in Hi. lia. }
  assert (Hto : (Mail.to self ++ Mail.bcc self)%list <> []) by congruence.
  destruct (send_spec env self retries Hto) as (n & Hw & Hn & Hc & He).
  rewrite Hw, attempts_turns.
  assert (Hraised : forall i e, (i < n)%nat -> failure env (Z.of_nat i) = Some e ->
            isinstance e OSError = true).
  { intros i e Hi Hf. apply (Hos (Z.of_nat i) e); [lia| |exact Hf].
    intros j Hj. apply Hc. lia. }
  assert (Hlog : forall i e, (i < n)%nat -> failure env (Z.of_nat i) = Some e ->
            In (log_line env self (Z.of_nat i) e)
               (printed (turns env self (Mail.to self ++ Mail.bcc self) n 0 None))).
  { intros i e Hi Hf.
    destruct (turns_split env self (Mail.to self ++ Mail.bcc self) n i 0 None Hi)
      as [old Esplit].
    rewrite Esplit, !printed_app, printed_turn. cbn [Z.add]. rewrite Hf.
    apply in_or_app; right. apply in_or_app; left.
    unfold log_line. rewrite (Hraised i e Hi Hf).
    destruct (isinstance e SMTPAuthenticationError); left; reflexivity. }
  rewrite E in *.
  destruct He as [(Hr & H1 & Hsuc)|[(Hr & Hex & Hall)|(e & Hr & H1 & Hf & Hno)]].
  - exists true. split; [exact Hr|]. split; [discriminate|exact Hlog].
  - exists false. split; [exact Hr|]. split; [|exact Hlog].
    intros _. split; [discriminate|]. split; [exact Hex|].
    intros i Hi. apply Hall. lia.
  - replace (Z.of_nat n - 1) with (Z.of_nat (n - 1)) in Hf by lia.
    rewrite (Hraised (n - 1)%nat e ltac:(lia) Hf) in Hno. discriminate.
Qed.

(** C6 amended, on a host where nothing listens: five attempts, five lines,
    and False. *)
Lemma send_swallows_OSErrors_witness :
  (forall k e,
     0 <= k < 5 ->
     (forall i, 0 <= i < k -> caught env_refused i = true) ->
     failure env_refused k = Some e ->
     isinstance e OSError = true) /\
  snd (call_send env_refused team_mail 5) = Return false.
Proof.
  assert (H : forall k e,
            0 <= k < 5 ->
            (forall i, 0 <= i < k -> caught env_refused i = true) ->
            failure env_refused k = Some e ->
            isinstance e OSError = true).
  { intros k e _ _ Hf. vm_compute in Hf. injection Hf as <-. reflexivity. }
  split; [exact H|].
  destruct (send_swallows_OSErrors env_refused team_mail 5 H) as (b & Hb & _).
  rewrite Hb. vm_compute in Hb. symmetry. exact Hb.
Defined.

(** C5.  When [to + bcc] is empty, [send] makes no call into the SMTP
    library at all, prints the notice that no mail was sent, and returns
    True. *)
Theorem send_without_recipients (env : oracle) (self : Mail.t) (retries : Z) :
  (Mail.to self ++ Mail.bcc self)%list = [] ->
  world (fst (call_send env self retries)) =
    [ev_print "No mail adresses given, no mails sent."] /\
  transport (world (fst (call_send env self retries))) = [] /\
  attempts (world (fst (call_send env self retries))) = 0%nat /\
  snd (call_send env self retries) = Return true.
Proof.
  intros Hto. rewrite call_send_nobody by exact Hto.
  repeat split.
Qed.

(** C5, on [Mail(me, [])], which the constructor accepts. *)
Lemma send_without_recipients_witness :
  Mail.__init__ me (Some (a_list [])) "" "" None None None None "mixed" a_date
    = Return nobody_mail /\
  (Mail.to nobody_mail ++ Mail.bcc nobody_mail)%list = [] /\
  transport (world (fst (call_send env_ok nobody_mail 3))) = [] /\
  snd (call_send env_ok nobody_mail 3) = Return true.
Proof.
  split; [reflexivity|]. split; [reflexivity|].
  pose proof (send_without_recipients env_ok nobody_mail 3 eq_refl)
    as (_ & Ht & _ & Hr).
  split; [exact Ht|exact Hr].
Defined.

(* ===================================================================== *)
(** ** The constructor *)
(* ===================================================================== *)

Section Constructor.

Variable sender : MailSender.t.
Variables subject text : string.
Variable attachments : option (list (string * list byte)).
Variable bcc : option str_or_list.
Variables reply_to custom_to_header : option string.
Variable root_msg_mime_subtype : string.
Variable now : string.

(** Attaching parts leaves the headers alone. *)
Lemma headers_attach_all (g : string * list byte -> mime_part)
    (l : list (string * list byte)) : forall m,
  headers (fold_left (fun msg item => attach (g item) msg) l m) = headers m.
Proof.
  induction l as [|x l IH]; intros m; simpl; [reflexivity|].
  rewrite IH. reflexivity.
Qed.

(** The attributes and headers of the object that the constructor returns
    when it is given a [to]. *)
Lemma init_returns (to : str_or_list) :
  exists m,
    Mail.__init__ sender (Some to) subject text attachments bcc reply_to
                  custom_to_header root_msg_mime_subtype now = Return m /\
    Mail.sender m = sender /\
    Mail.to m = match to with a_str s => [s] | a_list l => l end /\
    Mail.bcc m = match bcc with
                 | None => []
                 | Some (a_str s) => [s]
                 | Some (a_list l) => l
                 end /\
    headers (Mail.msg m) =
      [ ("Content-Type", Some ("multipart/" ++ root_msg_mime_subtype));
        ("MIME-Version", Some "1.0");
        ("Subject", Some subject);
        ("To", match custom_to_header with
               | None => Some (join "," (Mail.to m))
               | Some h => Some h
               end);
        ("From", if truthy (MailSender.from_ sender)
                 then MailSender.from_ sender
                 else Some (MailSender.user sender));
        ("Reply-To", if truthy reply_to then reply_to
                     else if truthy (MailSender.reply_to sender)
                          then MailSender.reply_to sender
                          else MailSender.from_ sender);
        ("Date", Some now) ].
Proof.
  eexists. split; [reflexivity|].
  cbn [Mail.sender Mail.to Mail.bcc Mail.msg].
  repeat split.
  unfold setitem; cbn [headers parts]. rewrite headers_attach_all.
  reflexivity.
Qed.

End Constructor.

(** C2, as stated, fails: an empty list, and an empty string, are accepted
    as [to]. *)
Lemma empty_to_is_accepted :
  (exists m, Mail.__init__ me (Some (a_list [])) "" "" None None None None
                           "mixed" a_date = Return m /\ Mail.to m = []) /\
  (exists m, Mail.__init__ me (Some (a_str "")) "" "" None None None None
                           "mixed" a_date = Return m /\ Mail.to m = [""]).
Proof. split; eexists; split; reflexivity. Qed.

(** C2, amended.  The constructor raises, with ValueError "Mail: No
    recipient given", exactly when [to] is None.  Given any other [to], a
    string or a list, empty or not, it returns the object, whose [to]
    attribute is the list given or the one-element list of the string. *)
Theorem init_raises_only_without_to
    (sender : MailSender.t) (to : option str_or_list) (subject text : string)
    (attachments : option (list (string * list byte)))
    (bcc : option str_or_list) (reply_to custom_to_header : option string)
    (root_msg_mime_subtype now : string) :
  match to with
  | None =>
      Mail.__init__ sender to subject text attachments bcc reply_to
                    custom_to_header root_msg_mime_subtype now
      = Raise (mk_exn ValueError "Mail: No recipient given")
  | Some given =>
      exists m,
        Mail.__init__ sender to subject text attachments bcc reply_to
                      custom_to_header root_msg_mime_subtype now = Return m /\
        Mail.to m = match given with a_str s => [s] | a_list l => l end
  end.
Proof.
  destruct to as [given|]; [|reflexivity].
  destruct (init_returns sender subject text attachments bcc reply_to
              custom_to_header root_msg_mime_subtype now given)
    as (m & Hm & _ & Hto & _).
  exists m. split; assumption.
Qed.

(** C7, as stated, fails: a message-level [reply_to] that is given but is
    the empty string is not used; the sender's is. *)
Lemma empty_reply_to_not_used :
  exists m,
    Mail.__init__ sender_a (Some (a_str "x@example.com")) "" "" None None
                  (Some "") None "mixed" a_date = Return m /\
    getitem "Reply-To" (Mail.msg m) = Some "a" /\
    getitem "Reply-To" (Mail.msg m) <> Some "".
Proof. eexists. split; [reflexivity|]. split; [reflexivity|discriminate]. Qed.

(** C7, amended.  The Reply-To header is the message-level [reply_to] when
    that is given and not empty; otherwise the sender's [reply_to] when that
    is set and not empty; otherwise the sender's [from_] (which may be
    None). *)
Theorem reply_to_precedence
    (sender : MailSender.t) (to : option str_or_list) (subject text : string)
    (attachments : option (list (string * list byte)))
    (bcc : option str_or_list) (reply_to custom_to_header : option string)
    (root_msg_mime_subtype now : string) (m : Mail.t) :
  Mail.__init__ sender to subject text attachments bcc reply_to
                custom_to_header root_msg_mime_subtype now = Return m ->
  (forall b, reply_to = Some b -> b <> "" ->
     getitem "Reply-To" (Mail.msg m) = Some b) /\
  (truthy reply_to = false ->
   forall a, MailSender.reply_to sender = Some a -> a <> "" ->
     getitem "Reply-To" (Mail.msg m) = Some a) /\
  (truthy reply_to = false -> truthy (MailSender.reply_to sender) = false ->
     getitem "Reply-To" (Mail.msg m) = MailSender.from_ sender).
Proof.
  intros Hm.
  destruct to as [given|]; [|discriminate Hm].
  destruct (init_returns sender subject text attachments bcc reply_to
              custom_to_header root_msg_mime_subtype now given)
    as (m' & Hm' & _ & _ & _ & Hh).
  rewrite Hm in Hm'. injection Hm' as <-.
  assert (Hget : getitem "Reply-To" (Mail.msg m) =
                 if truthy reply_to then reply_to
                 else if truthy (MailSender.reply_to sender)
                      then MailSender.reply_to sender
                      else MailSender.from_ sender).
  { unfold getitem. rewrite Hh. reflexivity. }
  assert (Htruthy : forall s, s <> "" -> truthy (Some s) = true).
  { intros s Hs. simpl. destruct (String.eqb_spec s ""); [contradiction|reflexivity]. }
  rewrite Hget. split; [|split].
  - intros b -> Hb. rewrite Htruthy by exact Hb. reflexivity.
  - intros -> a Ha Hne. rewrite Ha, Htruthy by exact Hne. reflexivity.
  - intros -> ->. reflexivity.
Qed.

(** C7 amended, with sender reply address "a" and message reply address
    "b": the header is "b". *)
Lemma reply_to_precedence_witness :
  Mail.__init__ sender_a (Some (a_str "x@example.com")) "" "" None None
                (Some "b") None "mixed" a_date
  = Return (constructed
              (Mail.__init__ sender_a (Some (a_str "x@example.com")) "" "" None
                             None (Some "b") None "mixed" a_date)) /\
  getitem "Reply-To"
    (Mail.msg (constructed
                 (Mail.__init__ sender_a (Some (a_str "x@example.com")) "" ""
                                None None (Some "b") None "mixed" a_date)))
  = Some "b".
Proof.
  split; [reflexivity|].
  refine (proj1 (reply_to_precedence sender_a (Some (a_str "x@example.com"))
                   "" "" None None (Some "b") None "mixed" a_date _ eq_refl)
                "b" eq_refl _).
  discriminate.
Defined.

(** C8.  The To header of a constructed mail is the [to] list joined with
    commas when no [custom_to_header] is given, and the [custom_to_header]
    as it is when one is given.  The [to] and [bcc] attributes are the
    normalised arguments whatever the [custom_to_header]; and every
    [sendmail] call of [send] has [to + bcc] as its recipients (when the
    first attempt succeeds there is exactly that one call). *)
Theorem to_header_and_recipients
    (sender : MailSender.t) (to : str_or_list) (subject text : string)
    (attachments : option (list (string * list byte)))
    (bcc : option str_or_list) (reply_to custom_to_header : option string)
    (root_msg_mime_subtype now : string) (m : Mail.t) :
  Mail.__init__ sender (Some to) subject text attachments bcc reply_to
                custom_to_header root_msg_mime_subtype now = Return m ->
  getitem "To" (Mail.msg m) =
    Some (match custom_to_header with
          | None => join "," (Mail.to m)
          | Some h => h
          end) /\
  Mail.to m = match to with a_str s => [s] | a_list l => l end /\
  Mail.bcc m =
    match bcc with None => [] | Some (a_str s) => [s] | Some (a_list l) => l end /\
  forall (env : oracle) (retries : Z),
    Forall (fun d => snd (fst d) = (Mail.to m ++ Mail.bcc m)%list)
           (deliveries (world (fst (call_send env m retries)))) /\
    ((Mail.to m ++ Mail.bcc m)%list <> [] -> 0 < retries ->
     succeeds env 0 = true ->
     map (fun d => snd (fst d))
         (deliveries (world (fst (call_send env m retries))))
     = [(Mail.to m ++ Mail.bcc m)%list]).
Proof.
  intros Hm.
  destruct (init_returns sender subject text attachments bcc reply_to
              custom_to_header root_msg_mime_subtype now to)
    as (m' & Hm' & _ & Hto & Hbcc & Hh).
  rewrite Hm in Hm'. injection Hm' as <-.
  split.
  { unfold getitem. rewrite Hh. destruct custom_to_header; reflexivity. }
  split; [exact Hto|].
  split; [exact Hbcc|].
  intros env retries. split.
  - eapply Forall_impl; [|apply deliveries_call_send].
    intros d ->. reflexivity.
  - intros Hne Hr Hok.
    rewrite (deliveries_first_ok env m retries Hne Hr Hok). reflexivity.
Qed.

(** C8, on the mail to x and y that displays "Team": the header is the
    custom one, the delivery goes to both addresses. *)
Lemma to_header_and_recipients_witness :
  Mail.__init__ me (Some (a_list ["x@example.com"; "y@example.com"]))
                "subject" "hello" None None None
                (Some "Team <team@example.com>") "mixed" a_date
  = Return team_mail /\
  getitem "To" (Mail.msg team_mail) = Some "Team <team@example.com>" /\
  map (fun d => snd (fst d))
      (deliveries (world (fst (call_send env_ok team_mail 3))))
  = [["x@example.com"; "y@example.com"]].
Proof.
  split; [reflexivity|].
  pose proof (to_header_and_recipients me
                (a_list ["x@example.com"; "y@example.com"])
                "subject" "hello" None None None
                (Some "Team <team@example.com>") "mixed" a_date team_mail
                eq_refl) as (Hh & _ & _ & Hd).
  split; [exact Hh|].
  refine (proj2 (Hd env_ok 3) _ _ eq_refl); [discriminate|reflexivity].
Defined.

(** C10.  In every [sendmail] call that [send] makes, for any mail, server
    and budget, the envelope sender is the login name [user] of the sender
    (when the first attempt succeeds there is exactly that one call).  The
    From header of a constructed mail, however, is the sender's [from_] when
    that is set and not empty, so the two can differ. *)
Theorem envelope_sender_is_user :
  (forall (env : oracle) (self : Mail.t) (retries : Z),
     Forall (fun d => fst (fst d) = MailSender.user (Mail.sender self))
            (deliveries (world (fst (call_send env self retries)))) /\
     ((Mail.to self ++ Mail.bcc self)%list <> [] -> 0 < retries ->
      succeeds env 0 = true ->
      map (fun d => fst (fst d))
          (deliveries (world (fst (call_send env self retries))))
      = [MailSender.user (Mail.sender self)])) /\
  (forall (sender : MailSender.t) (to : option str_or_list)
          (subject text : string)
          (attachments : option (list (string * list byte)))
          (bcc : option str_or_list) (reply_to custom_to_header : option string)
          (root_msg_mime_subtype now : string) (m : Mail.t),
     Mail.__init__ sender to subject text attachments bcc reply_to
                   custom_to_header root_msg_mime_subtype now = Return m ->
     Mail.sender m = sender /\
     getitem "From" (Mail.msg m) =
       if truthy (MailSender.from_ sender) then MailSender.from_ sender
       else Some (MailSender.user sender)).
Proof.
  split.
  - intros env self retries. split.
    + eapply Forall_impl; [|apply deliveries_call_send].
      intros d ->. reflexivity.
    + intros Hne Hr Hok.
      rewrite (deliveries_first_ok env self retries Hne Hr Hok). reflexivity.
  - intros sender to subject text attachments bcc reply_to custom_to_header
           root_msg_mime_subtype now m Hm.
    destruct to as [given|]; [|discriminate Hm].
    destruct (init_returns sender subject text attachments bcc reply_to
                custom_to_header root_msg_mime_subtype now given)
      as (m' & Hm' & Hs & _ & _ & Hh).
    rewrite Hm in Hm'. injection Hm' as <-.
    split; [exact Hs|].
    unfold getitem. rewrite Hh. reflexivity.
Qed.

(** C10, on the docstring's sender: the mail says From "Me
    <me@example.com>", the envelope says "me@example.com". *)
Lemma envelope_sender_is_user_witness :
  getitem "From" (Mail.msg team_mail) = Some "Me <me@example.com>" /\
  map (fun d => fst (fst d))
      (deliveries (world (fst (call_send env_ok team_mail 3))))
  = ["me@example.com"].
Proof.
  split.
  - exact (proj2 (proj2 envelope_sender_is_user me
                   (Some (a_list ["x@example.com"; "y@example.com"]))
                   "subject" "hello" None None None
                   (Some "Team <team@example.com>") "mixed" a_date team_mail
                   eq_refl)).
  - refine (proj2 (proj1 envelope_sender_is_user env_ok team_mail 3) _ _ eq_refl);
      [discriminate|reflexivity].
Defined.

(* ===================================================================== *)
(** ** More about the retry loop *)
(* ===================================================================== *)

Section MoreTurns.

Variable env : oracle.
Variable self : Mail.t.
Variable rcpt : list string.

Lemma sleeps_turn_wait k old : sleeps (turn env self rcpt k old) = wait env k.
Proof. rewrite sleeps_turn. reflexivity. Qed.

Lemma sleeps_turns_from n : forall (s : nat) old,
  sleeps (turns env self rcpt n (Z.of_nat s) old) =
  flat_map (fun i => wait env (Z.of_nat i)) (seq s n).
Proof.
  induction n as [|n IH]; intros s old; cbn [turns seq flat_map]; [reflexivity|].
  rewrite sleeps_app, sleeps_turn_wait. f_equal.
  replace (Z.of_nat s + 1) with (Z.of_nat (S s)) by lia. apply IH.
Qed.

Lemma sleeps_turns n : sleeps (turns env self rcpt n 0 None) = waits env n.
Proof. apply (sleeps_turns_from n 0%nat None). Qed.

(** The calls of an attempt: the constructor first, and no other attempt,
    sleep or close among them. *)
Lemma calls_shape k :
  exists rest,
    upto_failure env k (calls_of self rcpt k) =
      ev_SMTP (MailSender.server (Mail.sender self)) :: rest /\
    attempts rest = 0%nat /\ sleeps rest = [] /\ closes rest = [] /\
    printed rest = [].
Proof.
  unfold calls_of, upto_failure, asked. eexists. split; [reflexivity|].
  destruct (env k c_SMTP), (env k c_ehlo1), (env k c_starttls),
           (env k c_ehlo2), (env k c_login), (as_string env),
           (env k c_sendmail);
    repeat split.
Qed.

(** What the [except] clauses add: no call into the library. *)
Lemma handled_quiet k (o : option exn) :
  let evs := match o with Some e => handled env self k e | None => [] end in
  attempts evs = 0%nat /\ closes evs = [] /\ transport evs = [].
Proof.
  destruct o as [e|]; cbv zeta; [|repeat split].
  unfold handled.
  destruct (isinstance e SMTPAuthenticationError);
    [|destruct (isinstance e OSError)]; repeat split.
Qed.

(** The calls of an attempt that succeeds. *)
Lemma turn_ok k old :
  succeeds env k = true ->
  turn env self rcpt k old =
  [ ev_SMTP (MailSender.server (Mail.sender self));
    ev_ehlo k; ev_starttls k; ev_ehlo k;
    ev_login k (MailSender.user (Mail.sender self))
               (MailSender.password (Mail.sender self));
    ev_sendmail k (MailSender.user (Mail.sender self)) rcpt (Mail.msg self);
    ev_close k ].
Proof.
  unfold succeeds, turn, closing, srv_after, failure, first_raised, calls_of,
         upto_failure, asked.
  destruct (env k c_SMTP), (env k c_ehlo1), (env k c_starttls),
           (env k c_ehlo2), (env k c_login), (as_string env),
           (env k c_sendmail);
    intros H; try discriminate H; reflexivity.
Qed.

(** An event of [n] turns lies in one of them. *)
Lemma in_turns (x : event) n : forall k old,
  In x (turns env self rcpt n k old) ->
  exists (j : nat) (old' : option Z) (before after : list event),
    (j < n)%nat /\
    In x (turn env self rcpt (k + Z.of_nat j) old') /\
    turns env self rcpt n k old =
      (before ++ turn env self rcpt (k + Z.of_nat j) old' ++ after)%list /\
    attempts before = j.
Proof.
  induction n as [|n IH]; intros k old Hin; cbn [turns] in Hin; [contradiction|].
  apply in_app_or in Hin. destruct Hin as [Hin|Hin].
  - exists 0%nat, old, [], (turns env self rcpt n (k + 1) (srv_after env k old)).
    cbn [Z.of_nat]. rewrite Z.add_0_r.
    split; [lia|]. split; [exact Hin|]. split; reflexivity.
  - destruct (IH _ _ Hin) as (j & old' & before & after & Hj & Hx & E & Ha).
    exists (S j), old', (turn env self rcpt k old ++ before)%list, after.
    replace (k + Z.of_nat (S j)) with (k + 1 + Z.of_nat j) by lia.
    split; [lia|]. split; [exact Hx|]. split.
    + cbn [turns]. rewrite E, <- app_assoc. reflexivity.
    + rewrite attempts_app, attempts_turn, Ha. reflexivity.
Qed.

(** A login call is the fifth call of its attempt: the constructor, EHLO,
    STARTTLS and EHLO again have returned. *)
Lemma login_in_turn k old c u p :
  In (ev_login c u p) (turn env self rcpt k old) ->
  c = k /\
  u = MailSender.user (Mail.sender self) /\
  p = MailSender.password (Mail.sender self) /\
  env k c_SMTP = None /\ env k c_starttls = None /\
  exists rest,
    turn env self rcpt k old =
    ([ ev_SMTP (MailSender.server (Mail.sender self));
       ev_ehlo k; ev_starttls k; ev_ehlo k; ev_login k u p ] ++ rest)%list.
Proof.
  unfold turn, handled, closing, srv_after, failure, first_raised, calls_of,
         upto_failure, asked.
  destruct (env k c_SMTP) as [e1|]; [|destruct (env k c_ehlo1) as [e2|];
    [|destruct (env k c_starttls) as [e3|]; [|destruct (env k c_ehlo2) as [e4|]]]].
  1-4: repeat match goal with
         | |- context [isinstance ?e ?cl] => destruct (isinstance e cl)
         | |- context [match ?s with Some _ => _ | None => _ end] => destruct s
         end;
       cbn [app In]; intros H;
       repeat (destruct H as [H|H]; [discriminate H|]); contradiction.
  intros Hin.
  assert (Hev : ev_login c u p =
                ev_login k (MailSender.user (Mail.sender self))
                           (MailSender.password (Mail.sender self))).
  { destruct (env k c_login) as [e5|];
      [|destruct (as_string env) as [e6|];
        [|destruct (env k c_sendmail) as [e7|]]];
      repeat match type of Hin with
         | context [isinstance ?e ?cl] => destruct (isinstance e cl)
         end;
      cbn [app In] in Hin;
      repeat (destruct Hin as [Hin|Hin];
              [first [discriminate Hin | symmetry; exact Hin]|]);
      contradiction. }
  injection Hev as -> -> ->.
  repeat split. eexists. cbn [app]. reflexivity.
Qed.

End MoreTurns.

(** The attempt that is not a caught failure is the last one. *)
Lemma send_stops_at (env : oracle) (self : Mail.t) (retries k : Z) :
  (Mail.to self ++ Mail.bcc self)%list <> [] ->
  0 <= k < retries ->
  (forall i, 0 <= i < k -> caught env i = true) ->
  caught env k = false ->
  exists old,
    world (fst (call_send env self retries)) =
      (turns env self (Mail.to self ++ Mail.bcc self) (Z.to_nat k) 0 None ++
       turn env self (Mail.to self ++ Mail.bcc self) k old)%list /\
    (succeeds env k = true -> snd (call_send env self retries) = Return true) /\
    (forall e, failure env k = Some e ->
               snd (call_send env self retries) = Raise e).
Proof.
  intros Hto Hk Hbefore Hnot.
  destruct (send_turn_at env self retries k Hto Hk Hbefore)
    as (n & old & Hw & Hlt & Hn & Hc & He).
  cbv zeta in Hw.
  assert (En : Z.of_nat n - 1 = k).
  { destruct (Z.eq_dec (Z.of_nat n - 1) k) as [E|Hne]; [exact E|exfalso].
    rewrite Hc in Hnot by lia. discriminate. }
  exists old.
  replace (n - Z.to_nat k - 1)%nat with 0%nat in Hw by lia.
  cbn [turns] in Hw. rewrite app_nil_r in Hw.
  split; [exact Hw|].
  destruct He as [(Hr & _ & Hsuc)|[(Hr & _ & Hall)|(e & Hr & _ & Hf & _)]].
  - split; [intros _; exact Hr|].
    intros e Hf. rewrite En in Hsuc. unfold succeeds in Hsuc.
    rewrite Hf in Hsuc. discriminate.
  - rewrite Hall in Hnot by lia. discriminate.
  - rewrite En in Hf. split.
    + unfold succeeds. rewrite Hf. discriminate.
    + intros e' Hf'. rewrite Hf in Hf'. injection Hf' as <-. exact Hr.
Qed.

(** When every attempt that the budget allows is a caught failure, all of
    them are made and the answer is False. *)
Lemma send_all_caught (env : oracle) (self : Mail.t) (retries : Z) :
  (Mail.to self ++ Mail.bcc self)%list <> [] ->
  (forall k, 0 <= k < retries -> caught env k = true) ->
  snd (call_send env self retries) = Return false /\
  world (fst (call_send env self retries)) =
    turns env self (Mail.to self ++ Mail.bcc self) (Z.to_nat retries) 0 None.
Proof.
  intros Hto Hall.
  destruct (send_spec env self retries Hto) as (n & Hw & Hn & Hc & He).
  assert (Hn' : n = Z.to_nat retries).
  { destruct (Z_le_gt_dec retries 0) as [Hle|Hgt]; [lia|].
    assert (retries - 1 < Z.of_nat n).
    { eapply send_reaches; try eassumption; [lia|]. intros; apply Hall; lia. }
    lia. }
  split; [|rewrite Hw, Hn'; reflexivity].
  destruct He as [(_ & H1 & Hsuc)|[(Hr & _)|(e & _ & H1 & Hf & Hno)]].
  - rewrite caught_not_succeeds in Hsuc by (apply Hall; lia). discriminate.
  - exact Hr.
  - assert (Hk : caught env (Z.of_nat n - 1) = true) by (apply Hall; lia).
    unfold caught in Hk. rewrite Hf in Hk. congruence.
Qed.

(** X1.  Whatever the server does, [send] makes at most [retries]
    attempts.  With a budget of zero or less and somebody to send to, it
    makes no call, prints nothing, and returns False. *)
Theorem send_respects_any_budget (env : oracle) (self : Mail.t) (retries : Z) :
  Z.of_nat (attempts (world (fst (call_send env self retries)))) <= Z.max 0 retries /\
  ((Mail.to self ++ Mail.bcc self)%list <> [] -> retries <= 0 ->
   world (fst (call_send env self retries)) = [] /\
   snd (call_send env self retries) = Return false).
Proof.
  destruct (Mail.to self ++ Mail.bcc self)%list as [|a l] eqn:E.
  { rewrite call_send_nobody by exact E. split; [cbn; lia|congruence]. }
  assert (Hto : (Mail.to self ++ Mail.bcc self)%list <> []) by congruence.
  destruct (send_spec env self retries Hto) as (n & Hw & Hn & Hc & He).
  rewrite Hw, attempts_turns. split; [exact Hn|].
  intros _ Hle. assert (n = 0%nat) as -> by lia.
  split; [reflexivity|].
  destruct He as [(_ & H1 & _)|[(Hr & _)|(e & _ & H1 & _)]]; [lia|exact Hr|lia].
Qed.

(** X1, on a mail to two addresses and a working server: with
    [retries=0] nothing is sent and the answer is False. *)
Lemma send_respects_any_budget_witness :
  (Mail.to team_mail ++ Mail.bcc team_mail)%list <> [] /\ 0 <= 0 /\
  world (fst (call_send env_ok team_mail 0)) = [] /\
  snd (call_send env_ok team_mail 0) = Return false.
Proof.
  assert (H : (Mail.to team_mail ++ Mail.bcc team_mail)%list <> [])
    by (vm_compute; discriminate).
  split; [exact H|]. split; [lia|].
  exact (proj2 (send_respects_any_budget env_ok team_mail 0) H ltac:(lia)).
Defined.

(** X2.  When attempt [j] (from 0, within the budget) is the first that
    succeeds (its six calls and the rendering of the message return), the
    earlier ones having failed with caught errors, [send]
    returns True after exactly [j + 1] attempts; the last attempt is the
    seven calls constructor, EHLO, STARTTLS, EHLO, login, sendmail, close,
    and nothing follows it; the waits are those of the failed attempts. *)
Theorem send_first_success (env : oracle) (self : Mail.t) (retries j : Z) :
  (Mail.to self ++ Mail.bcc self)%list <> [] ->
  0 <= j < retries ->
  (forall i, 0 <= i < j -> caught env i = true) ->
  succeeds env j = true ->
  snd (call_send env self retries) = Return true /\
  Z.of_nat (attempts (world (fst (call_send env self retries)))) = j + 1 /\
  sleeps (world (fst (call_send env self retries))) = waits env (Z.to_nat j) /\
  exists before,
    world (fst (call_send env self retries)) =
      (before ++
       [ ev_SMTP (MailSender.server (Mail.sender self));
         ev_ehlo j; ev_starttls j; ev_ehlo j;
         ev_login j (MailSender.user (Mail.sender self))
                    (MailSender.password (Mail.sender self));
         ev_sendmail j (MailSender.user (Mail.sender self))
                     (Mail.to self ++ Mail.bcc self) (Mail.msg self);
         ev_close j ])%list /\
    Z.of_nat (attempts before) = j.
Proof.
  intros Hto Hj Hbefore Hok.
  assert (Hnot : caught env j = false).
  { unfold caught. unfold succeeds in Hok.
    destruct (failure env j); [discriminate Hok|reflexivity]. }
  destruct (send_stops_at env self retries j Hto Hj Hbefore Hnot)
    as (old & Hw & Hr & _).
  rewrite Hw. split; [exact (Hr Hok)|].
  rewrite attempts_app, attempts_turns, attempts_turn.
  split; [lia|].
  rewrite sleeps_app, sleeps_turns, sleeps_turn_wait.
  split.
  { unfold wait. unfold succeeds in Hok.
    destruct (failure env j); [discriminate Hok|apply app_nil_r]. }
  exists (turns env self (Mail.to self ++ Mail.bcc self) (Z.to_nat j) 0 None).
  rewrite (turn_ok env self _ j old Hok), attempts_turns.
  split; [reflexivity|lia].
Qed.

(** X2, on a server that is down for the first attempt only: True after
    2 attempts, one wait of 0 seconds. *)
Lemma send_first_success_witness :
  (Mail.to team_mail ++ Mail.bcc team_mail)%list <> [] /\ 0 <= 1 < 3 /\
  succeeds env_refused_once 1 = true /\
  snd (call_send env_refused_once team_mail 3) = Return true /\
  Z.of_nat (attempts (world (fst (call_send env_refused_once team_mail 3)))) = 2 /\
  sleeps (world (fst (call_send env_refused_once team_mail 3))) = [0].
Proof.
  assert (H1 : (Mail.to team_mail ++ Mail.bcc team_mail)%list <> [])
    by (vm_compute; discriminate).
  assert (H2 : 0 <= 1 < 3) by lia.
  assert (H3 : forall i, 0 <= i < 1 -> caught env_refused_once i = true).
  { intros i Hi. replace i with 0 by lia. reflexivity. }
  split; [exact H1|]. split; [exact H2|]. split; [reflexivity|].
  destruct (send_first_success env_refused_once team_mail 3 1 H1 H2 H3 eq_refl)
    as (Hr & Ha & Hs & _).
  split; [exact Hr|]. split; [exact Ha|exact Hs].
Defined.

(** X3.  In every call of [send] the sleeps are exactly the waits of the
    attempts made, in order: [k] seconds after attempt [k] when it failed
    with an authentication error, [k ** 2] when it failed with another
    OSError, and none after an attempt that succeeded or raised something
    else. *)
Theorem send_sleeps_are_waits (env : oracle) (self : Mail.t) (retries : Z) :
  sleeps (world (fst (call_send env self retries))) =
  waits env (attempts (world (fst (call_send env self retries)))).
Proof.
  destruct (Mail.to self ++ Mail.bcc self)%list as [|a l] eqn:E.
  { rewrite call_send_nobody by exact E. reflexivity. }
  assert (Hto : (Mail.to self ++ Mail.bcc self)%list <> []) by congruence.
  destruct (send_spec env self retries Hto) as (n & Hw & _).
  rewrite Hw, attempts_turns. apply sleeps_turns.
Qed.

(** X4.  The docstring's example, for any budget: when every attempt
    fails with an OSError that is not an authentication error, [send]
    makes all [retries] attempts, returns False, and has slept 0, 1, 4, ...,
    [(retries - 1) ** 2] seconds. *)
Theorem send_quadratic_waits (env : oracle) (self : Mail.t) (retries : Z) :
  (Mail.to self ++ Mail.bcc self)%list <> [] ->
  (forall k, 0 <= k < retries ->
     exists e, failure env k = Some e /\ isinstance e OSError = true /\
               isinstance e SMTPAuthenticationError = false) ->
  snd (call_send env self retries) = Return false /\
  attempts (world (fst (call_send env self retries))) = Z.to_nat retries /\
  sleeps (world (fst (call_send env self retries))) =
    map (fun i => Z.of_nat i ^ 2) (seq 0 (Z.to_nat retries)).
Proof.
  intros Hto Hall.
  assert (Hcaught : forall k, 0 <= k < retries -> caught env k = true).
  { intros k Hk. destruct (Hall k Hk) as (e & Hf & Hos & _).
    eapply caught_failure; eassumption. }
  destruct (send_all_caught env self retries Hto Hcaught) as (Hr & Hw).
  rewrite Hw, attempts_turns, sleeps_turns.
  split; [exact Hr|]. split; [reflexivity|].
  unfold waits.
  assert (Hin : forall i, In i (seq 0 (Z.to_nat retries)) ->
                          0 <= Z.of_nat i < retries).
  { intros i Hi. apply in_seq in Hi. lia. }
  induction (seq 0 (Z.to_nat retries)) as [|i l IH]; [reflexivity|].
  cbn [flat_map map].
  destruct (Hall (Z.of_nat i) (Hin i (or_introl eq_refl))) as (e & Hf & Hos & Hna).
  unfold wait at 1. rewrite Hf, Hna, Hos. cbn [app]. f_equal.
  apply IH. intros i' Hi'. apply Hin. right. exact Hi'.
Qed.

(** X4, on a host where nothing listens and the default budget: the waits
    are 0, 1 and 4 seconds. *)
Lemma send_quadratic_waits_witness :
  (Mail.to team_mail ++ Mail.bcc team_mail)%list <> [] /\
  snd (call_send env_refused team_mail 3) = Return false /\
  sleeps (world (fst (call_send env_refused team_mail 3))) = [0; 1; 4].
Proof.
  assert (H1 : (Mail.to team_mail ++ Mail.bcc team_mail)%list <> [])
    by (vm_compute; discriminate).
  assert (H2 : forall k, 0 <= k < 3 ->
            exists e, failure env_refused k = Some e /\
                      isinstance e OSError = true /\
                      isinstance e SMTPAuthenticationError = false).
  { intros k _. eexists. repeat split. }
  split; [exact H1|].
  destruct (send_quadratic_waits env_refused team_mail 3 H1 H2) as (Hr & _ & Hs).
  split; [exact Hr|exact Hs].
Defined.

Lemma closes_app (a b : list event) : closes (a ++ b) = (closes a ++ closes b)%list.
Proof. apply flat_map_app. Qed.

(** X5.  [send] never logs in on a connection that has not been upgraded:
    every login call in the trace is the fifth call of its attempt, right
    after the constructor, EHLO, STARTTLS and a second EHLO of that same
    attempt, all of which returned; and it carries the sender's [user] and
    [password]. *)
Theorem login_only_after_starttls (env : oracle) (self : Mail.t) (retries : Z)
    (c : Z) (u p : string) :
  In (ev_login c u p) (world (fst (call_send env self retries))) ->
  u = MailSender.user (Mail.sender self) /\
  p = MailSender.password (Mail.sender self) /\
  env c c_starttls = None /\
  exists before after,
    world (fst (call_send env self retries)) =
      (before ++
       [ ev_SMTP (MailSender.server (Mail.sender self));
         ev_ehlo c; ev_starttls c; ev_ehlo c; ev_login c u p ] ++
       after)%list /\
    Z.of_nat (attempts before) = c.
Proof.
  intros Hin.
  destruct (Mail.to self ++ Mail.bcc self)%list as [|a l] eqn:E.
  { rewrite call_send_nobody in Hin by exact E.
    cbn in Hin. destruct Hin as [H|[]]. discriminate H. }
  assert (Hto : (Mail.to self ++ Mail.bcc self)%list <> []) by congruence.
  destruct (send_spec env self retries Hto) as (n & Hw & _).
  rewrite E in Hw. rewrite Hw in Hin |- *.
  destruct (in_turns env self (a :: l) _ n 0 None Hin)
    as (j & old & before & after & Hj & Hx & Esplit & Ha).
  cbn [Z.add] in Hx, Esplit.
  destruct (login_in_turn env self (a :: l) _ old c u p Hx)
    as (-> & Hu & Hp & _ & Htls & rest & Et).
  split; [exact Hu|]. split; [exact Hp|]. split; [exact Htls|].
  exists before, (rest ++ after)%list.
  split; [|lia].
  rewrite Esplit, Et, <- app_assoc. reflexivity.
Qed.

(** X5, on the server that rejects the password: the login of the second
    attempt. *)
Lemma login_only_after_starttls_witness :
  In (ev_login 1 "me@example.com" "s3cr3t")
     (world (fst (call_send env_auth bcc_mail 3))) /\
  env_auth 1 c_starttls = None.
Proof.
  assert (H : In (ev_login 1 "me@example.com" "s3cr3t")
                 (world (fst (call_send env_auth bcc_mail 3)))).
  { vm_compute. do 12 right. left. reflexivity. }
  split; [exact H|].
  exact (proj1 (proj2 (proj2
           (login_only_after_starttls env_auth bcc_mail 3 1 _ _ H)))).
Defined.

(** X6.  A connection that was opened is closed before anything else is
    tried: when the constructor of attempt [k] returns, [close()] is called
    on that connection at the end of the same attempt, whether the attempt
    succeeded, failed or raised something [send] does not catch, and no
    other attempt and no other close comes in between. *)
Theorem opened_connection_is_closed (env : oracle) (self : Mail.t) (retries k : Z) :
  (Mail.to self ++ Mail.bcc self)%list <> [] ->
  0 <= k < retries ->
  (forall i, 0 <= i < k -> caught env i = true) ->
  env k c_SMTP = None ->
  exists before during after,
    world (fst (call_send env self retries)) =
      (before ++ ev_SMTP (MailSender.server (Mail.sender self)) :: during ++
       ev_close k :: after)%list /\
    Z.of_nat (attempts before) = k /\
    attempts during = 0%nat /\ closes during = [].
Proof.
  intros Hto Hk Hbefore Hopen.
  destruct (send_turn_at env self retries k Hto Hk Hbefore)
    as (n & old & Hw & Hlt & Hn & Hc & He).
  cbv zeta in Hw. unfold turn at 1 in Hw.
  unfold srv_after at 1 in Hw. rewrite Hopen in Hw. cbn [closing] in Hw.
  destruct (calls_shape env self (Mail.to self ++ Mail.bcc self) k)
    as (rest & Ecalls & Hra & _ & Hrc & _).
  destruct (handled_quiet env self k (failure env k)) as (Hha & Hhc & _).
  cbv zeta in Hha, Hhc.
  rewrite Ecalls in Hw.
  exists (turns env self (Mail.to self ++ Mail.bcc self) (Z.to_nat k) 0 None).
  exists (rest ++ match failure env k with
                  | Some e => handled env self k e
                  | None => []
                  end)%list.
  eexists.
  split; [rewrite Hw; cbn [app]; rewrite <- !app_assoc; reflexivity|].
  rewrite attempts_turns, attempts_app, Hra, Hha.
  split; [lia|]. split; [reflexivity|].
  rewrite closes_app, Hrc, Hhc. reflexivity.
Qed.

(** X6, on the server that rejects the password: the connection of the
    third attempt. *)
Lemma opened_connection_is_closed_witness :
  (Mail.to bcc_mail ++ Mail.bcc bcc_mail)%list <> [] /\ 0 <= 2 < 3 /\
  env_auth 2 c_SMTP = None /\
  In (ev_close 2) (world (fst (call_send env_auth bcc_mail 3))).
Proof.
  assert (H1 : (Mail.to bcc_mail ++ Mail.bcc bcc_mail)%list <> [])
    by (vm_compute; discriminate).
  assert (H2 : 0 <= 2 < 3) by lia.
  assert (H3 : forall i, 0 <= i < 2 -> caught env_auth i = true)
    by (intros i _; reflexivity).
  split; [exact H1|]. split; [exact H2|]. split; [reflexivity|].
  destruct (opened_connection_is_closed env_auth bcc_mail 3 2 H1 H2 H3 eq_refl)
    as (before & during & after & Hw & _).
  rewrite Hw. apply in_or_app. right. right.
  apply in_or_app. right. left. reflexivity.
Defined.



(** X8.  The local [smtpserver] outlives the attempt that bound it: when
    attempt [k] got a connection and failed, and the constructor of attempt
    [k + 1] raises, the [finally] block of attempt [k + 1] calls [close()]
    once more on the connection of attempt [k]. *)
Theorem stale_connection_closed_again (env : oracle) (self : Mail.t)
    (retries k : Z) (e : exn) :
  (Mail.to self ++ Mail.bcc self)%list <> [] ->
  0 <= k -> k + 1 < retries ->
  (forall i, 0 <= i <= k -> caught env i = true) ->
  env k c_SMTP = None ->
  env (k + 1) c_SMTP = Some e ->
  exists before between after,
    world (fst (call_send env self retries)) =
      (before ++ ev_close k :: between ++ ev_close k :: after)%list /\
    Z.of_nat (attempts before) = k + 1 /\
    attempts between = 1%nat /\ closes between = [].
Proof.
  intros Hto Hk0 Hk1 Hcaught Hopen Hraise.
  destruct (send_turn_at env self retries k Hto ltac:(lia)
              ltac:(intros; apply Hcaught; lia))
    as (n & old & Hw & Hlt & Hn & Hc & He).
  assert (Hnext : k + 1 < Z.of_nat n).
  { eapply send_reaches; try eassumption; [lia|].
    intros; apply Hcaught; lia. }
  cbv zeta in Hw.
  destruct (n - Z.to_nat k - 1)%nat as [|m] eqn:Em; [lia|].
  cbn [turns] in Hw.
  assert (Hsrv : srv_after env k old = Some k)
    by (unfold srv_after; rewrite Hopen; reflexivity).
  rewrite Hsrv in Hw.
  assert (Hsrv' : srv_after env (k + 1) (Some k) = Some k)
    by (unfold srv_after; rewrite Hraise; reflexivity).
  rewrite Hsrv' in Hw.
  unfold turn in Hw. rewrite Hsrv, Hsrv' in Hw. cbn [closing] in Hw.
  destruct (calls_shape env self (Mail.to self ++ Mail.bcc self) (k + 1))
    as (rest & Ecalls & Hra & _ & Hrc & _).
  destruct (handled_quiet env self k (failure env k)) as (Hha & _ & _).
  destruct (handled_quiet env self (k + 1) (failure env (k + 1))) as (Hha' & Hhc' & _).
  cbv zeta in Hha, Hha', Hhc'.
  exists (turns env self (Mail.to self ++ Mail.bcc self) (Z.to_nat k) 0 None ++
          upto_failure env k (calls_of self (Mail.to self ++ Mail.bcc self) k) ++
          match failure env k with Some e0 => handled env self k e0 | None => [] end)%list.
  exists (upto_failure env (k + 1)
            (calls_of self (Mail.to self ++ Mail.bcc self) (k + 1)) ++
          match failure env (k + 1) with
          | Some e0 => handled env self (k + 1) e0
          | None => []
          end)%list.
  eexists.
  split; [rewrite Hw; rewrite <- !app_assoc; cbn [app]; reflexivity|].
  rewrite !attempts_app, attempts_turns, !attempts_calls, Hha, Hha'.
  split; [lia|]. split; [reflexivity|].
  rewrite closes_app, Ecalls, Hhc'. cbn [closes flat_map app].
  fold (closes rest). rewrite Hrc. reflexivity.
Qed.

(** X8, on a server that refuses the recipients on the first attempt and
    is gone on the second: connection 0 is closed after each of them. *)
Lemma stale_connection_closed_again_witness :
  (Mail.to team_mail ++ Mail.bcc team_mail)%list <> [] /\
  env_stale 0 c_SMTP = None /\
  env_stale (0 + 1) c_SMTP =
    Some (mk_exn ConnectionRefusedError "[Errno 111] Connection refused") /\
  exists before between after,
    world (fst (call_send env_stale team_mail 2)) =
      (before ++ ev_close 0 :: between ++ ev_close 0 :: after)%list /\
    Z.of_nat (attempts before) = 0 + 1 /\
    attempts between = 1%nat /\ closes between = [].
Proof.
  assert (H1 : (Mail.to team_mail ++ Mail.bcc team_mail)%list <> [])
    by (vm_compute; discriminate).
  assert (H2 : forall i, 0 <= i <= 0 -> caught env_stale i = true).
  { intros i Hi. replace i with 0 by lia. reflexivity. }
  split; [exact H1|]. split; [reflexivity|]. split; [reflexivity|].
  exact (stale_connection_closed_again env_stale team_mail 2 0 _ H1
           ltac:(lia) ltac:(lia) H2 eq_refl eq_refl).
Defined.

(** X9.  An exception that is not an OSError ends [send] at once: when
    attempt [k] raises one, it is not logged, there is no wait and no
    further attempt; the connection, if the attempt got one, is closed, and
    the exception goes to the caller. *)
Theorem uncaught_exception_ends_send (env : oracle) (self : Mail.t)
    (retries k : Z) (e : exn) :
  (Mail.to self ++ Mail.bcc self)%list <> [] ->
  0 <= k < retries ->
  (forall i, 0 <= i < k -> caught env i = true) ->
  failure env k = Some e ->
  isinstance e OSError = false ->
  snd (call_send env self retries) = Raise e /\
  Z.of_nat (attempts (world (fst (call_send env self retries)))) = k + 1 /\
  sleeps (world (fst (call_send env self retries))) = waits env (Z.to_nat k) /\
  exists before old,
    world (fst (call_send env self retries)) =
      (before ++
       upto_failure env k (calls_of self (Mail.to self ++ Mail.bcc self) k) ++
       closing (srv_after env k old))%list /\
    Z.of_nat (attempts before) = k /\
    Z.of_nat (List.length (printed before)) = k.
Proof.
  intros Hto Hk Hbefore Hf Hos.
  assert (Hnot : caught env k = false) by (unfold caught; rewrite Hf; exact Hos).
  assert (Hauth : isinstance e SMTPAuthenticationError = false).
  { destruct (isinstance e SMTPAuthenticationError) eqn:Ha; [|reflexivity].
    rewrite (auth_is_OSError e Ha) in Hos. discriminate. }
  destruct (send_stops_at env self retries k Hto Hk Hbefore Hnot)
    as (old & Hw & _ & Hr).
  rewrite Hw. split; [exact (Hr e Hf)|].
  rewrite attempts_app, attempts_turns, attempts_turn.
  split; [lia|].
  rewrite sleeps_app, sleeps_turns, sleeps_turn_wait.
  split; [unfold wait; rewrite Hf, Hauth, Hos; apply app_nil_r|].
  exists (turns env self (Mail.to self ++ Mail.bcc self) (Z.to_nat k) 0 None), old.
  split.
  { unfold turn. rewrite Hf. unfold handled. rewrite Hauth, Hos. reflexivity. }
  rewrite attempts_turns. split; [lia|].
  (* one line for each of the caught failures before *)
  assert (Hlen : forall n (s : nat) o,
            (forall i, (s <= i < s + n)%nat -> caught env (Z.of_nat i) = true) ->
            List.length (printed (turns env self (Mail.to self ++ Mail.bcc self)
                                        n (Z.of_nat s) o)) = n).
  { induction n as [|n IH]; intros s o Hall; cbn [turns]; [reflexivity|].
    rewrite printed_app, length_app, printed_turn.
    replace (Z.of_nat s + 1) with (Z.of_nat (S s)) by lia.
    rewrite IH by (intros i Hi; apply Hall; lia).
    pose proof (Hall s ltac:(lia)) as Hs. unfold caught in Hs.
    destruct (failure env (Z.of_nat s)) as [e0|]; [|discriminate Hs].
    rewrite Hs. destruct (isinstance e0 SMTPAuthenticationError); reflexivity. }
  pose proof (Hlen (Z.to_nat k) 0%nat None) as Hl.
  change (Z.of_nat 0) with 0 in Hl.
  rewrite Hl; [lia|].
  intros i Hi. apply Hbefore. lia.
Qed.

(** X9, where Python has no ssl module: RuntimeError on the first
    attempt, after four calls. *)
Lemma uncaught_exception_ends_send_witness :
  (Mail.to team_mail ++ Mail.bcc team_mail)%list <> [] /\ 0 <= 0 < 3 /\
  isinstance (mk_exn RuntimeError "No SSL support included in this Python")
             OSError = false /\
  snd (call_send env_no_ssl team_mail 3) =
    Raise (mk_exn RuntimeError "No SSL support included in this Python") /\
  Z.of_nat (attempts (world (fst (call_send env_no_ssl team_mail 3)))) = 0 + 1.
Proof.
  assert (H1 : (Mail.to team_mail ++ Mail.bcc team_mail)%list <> [])
    by (vm_compute; discriminate).
  assert (H2 : 0 <= 0 < 3) by lia.
  assert (H3 : forall i, 0 <= i < 0 -> caught env_no_ssl i = true)
    by (intros i Hi; lia).
  split; [exact H1|]. split; [exact H2|]. split; [reflexivity|].
  destruct (uncaught_exception_ends_send env_no_ssl team_mail 3 0 _
              H1 H2 H3 eq_refl eq_refl) as (Hr & Ha & _).
  split; [exact Hr|exact Ha].
Defined.

(* ===================================================================== *)
(** ** More about the constructor and the blind copies *)
(* ===================================================================== *)

Lemma parts_attach_all (g : string * list byte -> mime_part)
    (l : list (string * list byte)) : forall m,
  parts (fold_left (fun msg item => attach (g item) msg) l m) =
  (parts m ++ map g l)%list.
Proof.
  induction l as [|x l IH]; intros m; cbn [fold_left map].
  - symmetry. apply app_nil_r.
  - rewrite IH. unfold attach. cbn [parts]. rewrite <- app_assoc. reflexivity.
Qed.

(** X10.  The parts of a constructed message are the text first, then one
    part for every attachment in the order of the mapping, holding the
    bytes given and the header value [attachment; filename="<name>"] with
    the name exactly as given (nothing in it is escaped or removed). *)
Theorem attachments_become_parts
    (sender : MailSender.t) (to : option str_or_list) (subject text : string)
    (attachments : option (list (string * list byte)))
    (bcc : option str_or_list) (reply_to custom_to_header : option string)
    (root_msg_mime_subtype now : string) (m : Mail.t) :
  Mail.__init__ sender to subject text attachments bcc reply_to
                custom_to_header root_msg_mime_subtype now = Return m ->
  parts (Mail.msg m) =
    MIMEText text ::
    map (fun item =>
           MIMEBase_octet_stream (snd item)
             ("attachment; filename=" ++
              String dquote (fst item ++ String dquote "")))
        (match attachments with None => [] | Some d => d end).
Proof.
  intros Hm. destruct to as [given|]; [|discriminate Hm].
  unfold Mail.__init__ in Hm. injection Hm as <-.
  cbn [Mail.msg]. unfold setitem; cbn [parts].
  rewrite parts_attach_all. reflexivity.
Qed.

(** X10, with a file name that has a double quote in it. *)
Lemma attachments_become_parts_witness :
  parts (Mail.msg (constructed
           (Mail.__init__ me (Some (a_str "x@example.com")) "s" "hello"
              (Some [(String "a" (String dquote "b"), [x00; xff])])
              None None None "mixed" a_date)))
  = [ MIMEText "hello";
      MIMEBase_octet_stream [x00; xff]
        ("attachment; filename=" ++
         String dquote (String "a" (String dquote "b") ++ String dquote "")) ].
Proof.
  exact (attachments_become_parts me (Some (a_str "x@example.com")) "s" "hello"
           (Some [(String "a" (String dquote "b"), [x00; xff])])
           None None None "mixed" a_date _ eq_refl).
Defined.

Lemma printed_turns_from (env : oracle) (self : Mail.t) (rcpt : list string) n :
  forall (s : nat) old,
    printed (turns env self rcpt n (Z.of_nat s) old) =
    flat_map (fun i => said env (Mail.to self) (Z.of_nat i)) (seq s n).
Proof.
  induction n as [|n IH]; intros s old; cbn [turns seq flat_map]; [reflexivity|].
  rewrite printed_app, printed_turn. f_equal.
  replace (Z.of_nat s + 1) with (Z.of_nat (S s)) by lia. apply IH.
Qed.

(** X11.  What [send] prints, in full.  With no recipient it is the one
    notice.  Otherwise it is one line for every attempt that failed with an
    error that was caught, in the order of the attempts: the fixed line for
    an authentication error, and for another OSError the line built from
    [self.to], the attempt number, the text of the error and the wait.  An
    attempt that succeeded, or raised something else, prints nothing; and
    [bcc] is in no line unless the text of an error names it. *)
Theorem send_prints_one_line_per_failure (env : oracle) (self : Mail.t)
    (retries : Z) :
  printed (world (fst (call_send env self retries))) =
  match (Mail.to self ++ Mail.bcc self)%list with
  | [] => ["No mail adresses given, no mails sent."]
  | _ :: _ =>
      flat_map (fun i => said env (Mail.to self) (Z.of_nat i))
               (seq 0 (attempts (world (fst (call_send env self retries)))))
  end.
Proof.
  destruct (Mail.to self ++ Mail.bcc self)%list as [|a l] eqn:E.
  { rewrite call_send_nobody by exact E. reflexivity. }
  assert (Hto : (Mail.to self ++ Mail.bcc self)%list <> []) by congruence.
  destruct (send_spec env self retries Hto) as (n & Hw & _).
  rewrite Hw, attempts_turns.
  apply (printed_turns_from env self _ n 0%nat None).
Qed.

(* ===================================================================== *)
(** ** The command line *)
(* ===================================================================== *)

Section Script.

Variable a : Cli.args.
Variable h : Cli.host.

Lemma network_app (x y : list Cli.effect) :
  Cli.network (x ++ y) = (Cli.network x ++ Cli.network y)%list.
Proof. apply flat_map_app. Qed.

Lemma files_opened_app (x y : list Cli.effect) :
  Cli.files_opened (x ++ y) = (Cli.files_opened x ++ Cli.files_opened y)%list.
Proof. apply flat_map_app. Qed.

Lemma network_io (tr : list event) : Cli.network (map Cli.io tr) = transport tr.
Proof.
  induction tr as [|ev tr IH]; [reflexivity|].
  cbn [map Cli.network flat_map transport filter].
  fold (Cli.network (map Cli.io tr)). fold (transport tr). rewrite IH.
  destruct (is_transport ev); reflexivity.
Qed.

Lemma files_opened_io (tr : list event) : Cli.files_opened (map Cli.io tr) = [].
Proof. induction tr as [|ev tr IH]; [reflexivity|exact IH]. Qed.

Lemma files_opened_map (paths : list string) :
  Cli.files_opened (map Cli.opened paths) = paths.
Proof.
  induction paths as [|p l IH]; [reflexivity|].
  cbn [map Cli.files_opened flat_map app]. fold (Cli.files_opened (map Cli.opened l)).
  rewrite IH. reflexivity.
Qed.

(** Getting the password touches neither the network nor a file. *)
Lemma resolve_password_quiet :
  Cli.network (fst (Cli.resolve_password a h)) = [] /\
  Cli.files_opened (fst (Cli.resolve_password a h)) = [].
Proof.
  unfold Cli.resolve_password.
  destruct (Cli.password a);
    [destruct (Cli.getpass h _)|destruct (Cli.environ h _)]; split; reflexivity.
Qed.

(** The two ways in which getting the password ends the script. *)
Lemma resolve_password_fails (o : Cli.outcome) :
  snd (Cli.resolve_password a h) = inr o ->
  (Cli.password a = false /\ Cli.environ h "MAIL_PASSWORD" = None /\
   Cli.resolve_password a h = ([Cli.to_stderr Cli.no_password], inr (Cli.sys_exit 1)))
  \/
  (exists e, Cli.password a = true /\
             Cli.getpass h (Cli.password_prompt a) = inr e /\
             o = Cli.uncaught e).
Proof.
  unfold Cli.resolve_password.
  destruct (Cli.password a).
  - destruct (Cli.getpass h _) as [typed|e]; cbn [snd]; intros [= <-].
    right. exists e. repeat split.
  - destruct (Cli.environ h _); cbn [snd]; intros [= <-].
    left. repeat split.
Qed.

(** The loop over the attachments, when it reads them all. *)
Lemma read_attachments_all (paths : list string) : forall acc d,
  snd (Cli.read_attachments h paths acc) = inl d ->
  fst (Cli.read_attachments h paths acc) = map Cli.opened paths /\
  forall p, In p paths -> exists data, Cli.read_file h p = inl data.
Proof.
  induction paths as [|p l IH]; intros acc d Hd; cbn [Cli.read_attachments] in *.
  - split; [reflexivity|]. intros p [].
  - destruct (Cli.read_file h p) as [data|err] eqn:Ep.
    + destruct (Cli.read_attachments h l _) as [effs r] eqn:Er.
      cbn [fst snd] in *. subst r.
      destruct (IH (Cli.dict_set acc (Cli.basename p) data) d) as (Hf & Hall);
        [rewrite Er; reflexivity|].
      rewrite Er in Hf. cbn [fst] in Hf. subst effs.
      split; [reflexivity|].
      intros q [<-|Hq]; [exists data; exact Ep|apply Hall; exact Hq].
    + destruct (isinstance err Exception); discriminate Hd.
Qed.

(** The loop over the attachments, when it stops: at the first path that
    cannot be read, having opened that one and the ones before it. *)
Lemma read_attachments_stops (paths : list string) : forall acc o,
  snd (Cli.read_attachments h paths acc) = inr o ->
  exists pre p post err,
    paths = (pre ++ p :: post)%list /\
    (forall q, In q pre -> exists data, Cli.read_file h q = inl data) /\
    Cli.read_file h p = inr err /\
    Cli.files_opened (fst (Cli.read_attachments h paths acc)) = (pre ++ [p])%list /\
    Cli.network (fst (Cli.read_attachments h paths acc)) = [] /\
    o = (if isinstance err Exception then Cli.sys_exit 1 else Cli.uncaught err).
Proof.
  induction paths as [|p l IH]; intros acc o Ho; cbn [Cli.read_attachments] in *;
    [discriminate Ho|].
  destruct (Cli.read_file h p) as [data|err] eqn:Ep.
  - destruct (Cli.read_attachments h l _) as [effs r] eqn:Er.
    cbn [fst snd] in *. subst r.
    destruct (IH (Cli.dict_set acc (Cli.basename p) data) o)
      as (pre & q & post & err & -> & Hpre & Hq & Hfiles & Hnet & Ho');
      [rewrite Er; reflexivity|].
    rewrite Er in Hfiles, Hnet. cbn [fst] in Hfiles, Hnet.
    exists (p :: pre), q, post, err.
    split; [reflexivity|]. split.
    { intros x [<-|Hx]; [exists data; exact Ep|apply Hpre; exact Hx]. }
    split; [exact Hq|].
    split; [cbn [Cli.files_opened flat_map app];
            fold (Cli.files_opened effs); rewrite Hfiles; reflexivity|].
    split; [exact Hnet|exact Ho'].
  - exists [], p, l, err.
    split; [reflexivity|]. split; [intros q []|]. split; [exact Ep|].
    destruct (isinstance err Exception); cbn [fst snd] in *;
      injection Ho as <-; repeat split.
Qed.

Lemma read_attachments_quiet (paths : list string) : forall acc,
  Cli.network (fst (Cli.read_attachments h paths acc)) = [].
Proof.
  intros acc.
  destruct (snd (Cli.read_attachments h paths acc)) as [d|o] eqn:E.
  - destruct (read_attachments_all paths acc d E) as (-> & _).
    clear. induction paths as [|p l IH]; [reflexivity|exact IH].
  - destruct (read_attachments_stops paths acc o E)
      as (_ & _ & _ & _ & _ & _ & _ & _ & Hnet & _). exact Hnet.
Qed.

(** [main] always gets its [Mail]: [args.to] is a list. *)
Lemma the_mail_returns (pw : string) (atts : list (string * list byte)) :
  exists mail,
    Cli.the_mail a h pw atts = Return mail /\
    Mail.sender mail =
      MailSender.__init__ (Cli.user a) pw (Cli.server a) (Cli.from_ a)
                          (Cli.reply_to a) /\
    Mail.to mail = Cli.to a.
Proof.
  unfold Cli.the_mail.
  destruct (init_returns
              (MailSender.__init__ (Cli.user a) pw (Cli.server a) (Cli.from_ a)
                                   (Cli.reply_to a))
              (Cli.subject a) (Cli.content a) (Some atts)
              (option_map a_list (Cli.bcc a)) None None "mixed" (Cli.now h)
              (a_list (Cli.to a)))
    as (m & Hm & Hs & Hto & _).
  exists m. repeat split; assumption.
Qed.

(** How [main] goes, stage by stage. *)
Lemma main_cases :
  (exists o, snd (Cli.resolve_password a h) = inr o /\
             Cli.main a h = (fst (Cli.resolve_password a h), o))
  \/
  (exists pw o,
     snd (Cli.resolve_password a h) = inl pw /\
     snd (Cli.read_attachments h (Cli.attach a) []) = inr o /\
     Cli.main a h =
       ((fst (Cli.resolve_password a h) ++
         fst (Cli.read_attachments h (Cli.attach a) []))%list, o))
  \/
  (exists pw atts mail,
     snd (Cli.resolve_password a h) = inl pw /\
     snd (Cli.read_attachments h (Cli.attach a) []) = inl atts /\
     Cli.the_mail a h pw atts = Return mail /\
     Cli.main a h =
       if Cli.dry_run a then
         match as_string (Cli.smtp h) with
         | None =>
             ((fst (Cli.resolve_password a h) ++
               fst (Cli.read_attachments h (Cli.attach a) []) ++
               [Cli.printed_mail (Mail.msg mail)])%list, Cli.finished)
         | Some e =>
             ((fst (Cli.resolve_password a h) ++
               fst (Cli.read_attachments h (Cli.attach a) []))%list,
              Cli.uncaught e)
         end
       else
         ((fst (Cli.resolve_password a h) ++
           fst (Cli.read_attachments h (Cli.attach a) []) ++
           map Cli.io (world (fst (call_send (Cli.smtp h) mail
                                             Mail.default_retries))))%list,
          match snd (call_send (Cli.smtp h) mail Mail.default_retries) with
          | Return _ => Cli.finished
          | Raise e => Cli.uncaught e
          | OutOfFuel => Cli.no_fuel
          end)).
Proof.
  change (Cli.main a h) with (Cli.after_parsing a h).
  unfold Cli.after_parsing.
  destruct (Cli.resolve_password a h) as [effs1 [pw|o]]; cbn [fst snd].
  2:{ left. exists o. split; reflexivity. }
  destruct (Cli.read_attachments h (Cli.attach a) []) as [effs2 [atts|o]];
    cbn [fst snd].
  2:{ right; left. exists pw, o. repeat split. }
  right; right.
  destruct (the_mail_returns pw atts) as (mail & Hmail & _).
  exists pw, atts, mail. rewrite Hmail.
  repeat split.
  destruct (Cli.dry_run a); [reflexivity|].
  destruct (call_send (Cli.smtp h) mail Mail.default_retries) as [f r].
  reflexivity.
Qed.

End Script.

Section ScriptFacts.

Variable a : Cli.args.
Variable h : Cli.host.

(** The handler of KeyboardInterrupt adds one empty line and nothing
    else. *)
Lemma script_effects :
  Cli.network (fst (Cli.script a h)) = Cli.network (fst (Cli.main a h)) /\
  Cli.files_opened (fst (Cli.script a h)) = Cli.files_opened (fst (Cli.main a h)) /\
  (forall x, In x (fst (Cli.script a h)) ->
             In x (fst (Cli.main a h)) \/ x = Cli.io (ev_print "")).
Proof.
  unfold Cli.script.
  destruct (Cli.main a h) as [effs [| code | e |]]; cbn [fst];
    try (repeat split; intros x Hx; left; exact Hx).
  destruct (isinstance e KeyboardInterrupt); cbn [fst];
    [|repeat split; intros x Hx; left; exact Hx].
  rewrite network_app, files_opened_app. cbn. rewrite !app_nil_r.
  repeat split.
  intros x Hx. apply in_app_or in Hx.
  destruct Hx as [Hx|[<-|[]]]; [left; exact Hx|right; reflexivity].
Qed.

Lemma script_keeps_exit (code : Z) :
  snd (Cli.script a h) = Cli.sys_exit code -> Cli.script a h = Cli.main a h.
Proof.
  unfold Cli.script.
  destruct (Cli.main a h) as [effs [| c | e |]]; cbn [snd]; try reflexivity.
  destruct (isinstance e KeyboardInterrupt); cbn [snd]; discriminate.
Qed.

Lemma attempts_transport (tr : list event) : attempts (transport tr) = attempts tr.
Proof.
  induction tr as [|ev tr IH]; [reflexivity|].
  destruct ev; cbn [transport filter is_transport]; fold (transport tr);
    unfold attempts in *; cbn [filter is_attempt List.length];
    rewrite ?IH; reflexivity.
Qed.

Lemma io_in_resolve_password (ev : event) :
  ~ In (Cli.io ev) (fst (Cli.resolve_password a h)).
Proof.
  unfold Cli.resolve_password.
  destruct (Cli.password a);
    [destruct (Cli.getpass h _)|destruct (Cli.environ h _)]; cbn;
    intuition discriminate.
Qed.

Lemma io_in_read_attachments (ev : event) (paths : list string) : forall acc,
  In (Cli.io ev) (fst (Cli.read_attachments h paths acc)) ->
  is_transport ev = false.
Proof.
  induction paths as [|p l IH]; intros acc; cbn [Cli.read_attachments].
  - intros [].
  - destruct (Cli.read_file h p) as [data|err].
    + destruct (Cli.read_attachments h l _) as [effs r] eqn:Er.
      cbn [fst]. intros [Hx|Hx]; [discriminate Hx|].
      apply (IH (Cli.dict_set acc (Cli.basename p) data)).
      rewrite Er. exact Hx.
    + destruct (isinstance err Exception); cbn [fst In].
      * intros [Hx|[Hx|[]]]; [discriminate Hx|].
        injection Hx as <-. reflexivity.
      * intros [Hx|[]]. discriminate Hx.
Qed.

End ScriptFacts.

Lemma interrupt_is_not_OSError (e : exn) :
  isinstance e KeyboardInterrupt = true -> isinstance e OSError = false.
Proof.
  destruct e as [c s]; unfold isinstance; simpl.
  destruct c; vm_compute; congruence.
Qed.

(** A login call of [send] carries the sender's name and password, on a
    connection whose STARTTLS call returned. *)
Lemma login_in_send (env : oracle) (self : Mail.t) (retries : Z)
    (c : Z) (u p : string) :
  In (ev_login c u p) (world (fst (call_send env self retries))) ->
  u = MailSender.user (Mail.sender self) /\
  p = MailSender.password (Mail.sender self) /\
  env c c_starttls = None.
Proof.
  intros Hin.
  destruct (Mail.to self ++ Mail.bcc self)%list as [|x l] eqn:E.
  { rewrite call_send_nobody in Hin by exact E.
    cbn in Hin. destruct Hin as [H|[]]. discriminate H. }
  assert (Hto : (Mail.to self ++ Mail.bcc self)%list <> []) by congruence.
  destruct (send_spec env self retries Hto) as (n & Hw & _).
  rewrite Hw in Hin.
  destruct (in_turns env self _ _ n 0 None Hin)
    as (j & old & before & after & _ & Hx & _ & _).
  destruct (login_in_turn env self _ _ old c u p Hx)
    as (-> & Hu & Hp & _ & Htls & _).
  repeat split; assumption.
Qed.

(** X12.  The script makes no call into the SMTP library unless it is not
    a dry run, a password was obtained, and every attachment could be
    read. *)
Theorem script_network_needs_everything (a : Cli.args) (h : Cli.host) :
  Cli.network (fst (Cli.script a h)) <> [] ->
  Cli.dry_run a = false /\
  (exists pw, snd (Cli.resolve_password a h) = inl pw) /\
  (forall p, In p (Cli.attach a) -> exists data, Cli.read_file h p = inl data).
Proof.
  destruct (script_effects a h) as (-> & _ & _).
  destruct (resolve_password_quiet a h) as (Hq1 & _).
  pose proof (read_attachments_quiet h (Cli.attach a) []) as Hq2.
  destruct (main_cases a h) as [(o & Ho & Em)|[(pw & o & Hpw & Ho & Em)|
            (pw & atts & mail & Hpw & Hatts & Hmail & Em)]];
    rewrite Em.
  - cbn [fst]. rewrite Hq1. intros Hn. exfalso. apply Hn. reflexivity.
  - cbn [fst]. rewrite network_app, Hq1, Hq2.
    intros Hn. exfalso. apply Hn. reflexivity.
  - destruct (Cli.dry_run a); [destruct (as_string (Cli.smtp h))|]; cbn [fst].
    + rewrite !network_app, Hq1, Hq2.
      intros Hn. exfalso. apply Hn. reflexivity.
    + rewrite !network_app, Hq1, Hq2.
      intros Hn. exfalso. apply Hn. reflexivity.
    + intros _. split; [reflexivity|]. split; [exists pw; exact Hpw|].
      apply (read_attachments_all h (Cli.attach a) [] atts Hatts).
Qed.

(** X12, on a machine that has the password and both files: there are
    calls, so it was no dry run. *)
Lemma script_network_needs_everything_witness :
  Cli.network (fst (Cli.script cli_args (a_host env_ok))) <> [] /\
  Cli.dry_run cli_args = false /\
  Cli.network (fst (Cli.script cli_args_dry (a_host env_ok))) = [].
Proof.
  assert (H : Cli.network (fst (Cli.script cli_args (a_host env_ok))) <> [])
    by (vm_compute; discriminate).
  split; [exact H|].
  split; [exact (proj1 (script_network_needs_everything _ _ H))|].
  vm_compute. reflexivity.
Defined.

(** X13.  The script reaches [sys.exit] before any call into the SMTP
    library, and in three situations only: [parse_args] exits by itself
    (wrong arguments, or [-h]), with the status [argparse] gives; or, with
    status 1, there is no [-p] and no MAIL_PASSWORD in the environment,
    where the script has only written its error line to stderr; or, with
    status 1, an attachment cannot be read, where the script has opened
    that file and the ones before it and none of the ones after. *)
Theorem script_exits_with_1 (cl : Cli.command_line) (h : Cli.host) (code : Z) :
  snd (Cli.script cl h) = Cli.sys_exit code ->
  Cli.network (fst (Cli.script cl h)) = [] /\
  ((cl = Cli.parse_exit code /\ fst (Cli.script cl h) = [])
   \/
   (exists a,
      cl = Cli.parsed a /\ code = 1 /\
      ((Cli.password a = false /\ Cli.environ h "MAIL_PASSWORD" = None /\
        fst (Cli.script cl h) = [Cli.to_stderr Cli.no_password])
       \/
       (exists pre p post err,
          Cli.attach a = (pre ++ p :: post)%list /\
          (forall q, In q pre -> exists data, Cli.read_file h q = inl data) /\
          Cli.read_file h p = inr err /\
          isinstance err Exception = true /\
          Cli.files_opened (fst (Cli.script cl h)) = (pre ++ [p])%list)))).
Proof.
  destruct cl as [a|c].
  2:{ cbn. intros [= ->]. split; [reflexivity|]. left. split; reflexivity. }
  intros Hexit. pose proof (script_keeps_exit a h code Hexit) as Es.
  rewrite Es in *. clear Es.
  destruct (resolve_password_quiet a h) as (Hq1 & Hf1).
  destruct (main_cases a h) as [(o & Ho & Em)|[(pw & o & Hpw & Ho & Em)|
            (pw & atts & mail & Hpw & Hatts & Hmail & Em)]];
    rewrite Em in *; cbn [fst snd] in *.
  - subst o.
    destruct (resolve_password_fails a h _ Ho)
      as [(Hp & Henv & Er)|(e & _ & _ & Habs)]; [|discriminate Habs].
    rewrite Er in *. cbn [fst snd] in *. injection Ho as <-.
    split; [reflexivity|].
    right. exists a. split; [reflexivity|]. split; [reflexivity|].
    left. repeat split; assumption.
  - subst o.
    destruct (read_attachments_stops h (Cli.attach a) [] _ Ho)
      as (pre & p & post & err & Eatt & Hpre & Hp & Hfiles & Hnet & Hcode).
    destruct (isinstance err Exception) eqn:Hcls; [|discriminate Hcode].
    injection Hcode as <-.
    split; [rewrite network_app, Hq1, Hnet; reflexivity|].
    right. exists a. split; [reflexivity|]. split; [reflexivity|].
    right. exists pre, p, post, err.
    repeat split; try assumption.
    rewrite files_opened_app, Hf1, Hfiles. reflexivity.
  - destruct (Cli.dry_run a); [destruct (as_string (Cli.smtp h))|];
      cbn [snd] in Hexit; try discriminate Hexit.
    destruct (snd (call_send (Cli.smtp h) mail Mail.default_retries));
      discriminate Hexit.
Qed.

(** X13, after the second of two attachments was removed. *)
Lemma script_exits_with_1_witness :
  snd (Cli.script cli_args a_host_without_b) = Cli.sys_exit 1 /\
  Cli.network (fst (Cli.script cli_args a_host_without_b)) = [].
Proof.
  assert (H : snd (Cli.script cli_args a_host_without_b) = Cli.sys_exit 1)
    by reflexivity.
  split; [exact H|].
  exact (proj1 (script_exits_with_1 _ _ _ H)).
Defined.

(** X14.  The exit status of the script does not tell whether the mail
    went out: [main] drops the result of [send].  With the password and the
    attachments at hand and no dry run, when all three attempts fail with
    errors that [send] catches, [send] returns False and the script still
    runs to its end, with status 0. *)
Theorem script_status_ignores_send (a : Cli.args) (h : Cli.host)
    (pw : string) (atts : list (string * list byte)) :
  snd (Cli.resolve_password a h) = inl pw ->
  snd (Cli.read_attachments h (Cli.attach a) []) = inl atts ->
  Cli.dry_run a = false ->
  Cli.to a <> [] ->
  (forall k, 0 <= k < 3 -> caught (Cli.smtp h) k = true) ->
  snd (Cli.script a h) = Cli.finished /\
  Cli.exit_status (snd (Cli.script a h)) = 0 /\
  attempts (Cli.network (fst (Cli.script a h))) = 3%nat /\
  exists mail,
    Cli.the_mail a h pw atts = Return mail /\
    snd (call_send (Cli.smtp h) mail Mail.default_retries) = Return false.
Proof.
  intros Hpw Hatts Hdry Hto Hall.
  destruct (the_mail_returns a h pw atts) as (mail & Hmail & _ & Hmto).
  assert (Hne : (Mail.to mail ++ Mail.bcc mail)%list <> []).
  { rewrite Hmto. intros E. apply app_eq_nil in E. destruct E as [E _].
    exact (Hto E). }
  destruct (send_all_caught (Cli.smtp h) mail 3 Hne Hall) as (Hr & Hw).
  destruct (script_effects a h) as (Hnet & _ & _).
  destruct (resolve_password_quiet a h) as (Hq1 & _).
  pose proof (read_attachments_quiet h (Cli.attach a) []) as Hq2.
  assert (Em : Cli.main a h =
               ((fst (Cli.resolve_password a h) ++
                 fst (Cli.read_attachments h (Cli.attach a) []) ++
                 map Cli.io (world (fst (call_send (Cli.smtp h) mail 3))))%list,
                Cli.finished)).
  { destruct (main_cases a h) as [(o & Ho & _)|[(pw' & o & _ & Ho & _)|
              (pw' & atts' & mail' & Hpw' & Hatts' & Hmail' & Em)]];
      [congruence|congruence|].
    rewrite Hpw in Hpw'. injection Hpw' as <-.
    rewrite Hatts in Hatts'. injection Hatts' as <-.
    rewrite Hmail in Hmail'. injection Hmail' as <-.
    rewrite Hdry in Em. unfold Mail.default_retries in Em.
    rewrite Hr in Em. exact Em. }
  rewrite Hnet. unfold Cli.script. rewrite Em. cbn [fst snd Cli.exit_status].
  split; [reflexivity|]. split; [reflexivity|].
  split.
  - rewrite !network_app, Hq1, Hq2, network_io. cbn [app].
    rewrite attempts_transport, Hw, attempts_turns. reflexivity.
  - exists mail. split; [exact Hmail|exact Hr].
Qed.

(** X14, on a machine from which the server cannot be reached. *)
Lemma script_status_ignores_send_witness :
  Cli.to cli_args <> [] /\
  snd (Cli.script cli_args (a_host env_refused)) = Cli.finished /\
  Cli.exit_status (snd (Cli.script cli_args (a_host env_refused))) = 0 /\
  attempts (Cli.network (fst (Cli.script cli_args (a_host env_refused)))) = 3%nat.
Proof.
  assert (H : Cli.to cli_args <> []) by discriminate.
  split; [exact H|].
  destruct (script_status_ignores_send cli_args (a_host env_refused) _ _
              eq_refl eq_refl eq_refl H (fun k _ => eq_refl))
    as (H1 & H2 & H3 & _).
  split; [exact H1|]. split; [exact H2|exact H3].
Defined.

(* The dict of attachments. *)

Lemma dict_get_set_same (d : list (string * list byte)) (k : string) (v : list byte) :
  Cli.dict_get (Cli.dict_set d k v) k = Some v.
Proof.
  induction d as [|[k' v'] d IH]; cbn [Cli.dict_set Cli.dict_get].
  - rewrite String.eqb_refl. reflexivity.
  - destruct (k' =? k)%string eqn:E; cbn [Cli.dict_get]; rewrite E;
      [reflexivity|exact IH].
Qed.

Lemma dict_get_set_other (d : list (string * list byte)) (k k' : string)
    (v : list byte) :
  k <> k' -> Cli.dict_get (Cli.dict_set d k v) k' = Cli.dict_get d k'.
Proof.
  intros Hne. induction d as [|[k0 v0] d IH]; cbn [Cli.dict_set Cli.dict_get].
  - destruct (String.eqb_spec k k'); [contradiction|reflexivity].
  - destruct (String.eqb_spec k0 k) as [->|Hk]; cbn [Cli.dict_get].
    + destruct (String.eqb_spec k k'); [contradiction|reflexivity].
    + destruct (k0 =? k')%string; [reflexivity|exact IH].
Qed.

Lemma dict_keys_set (d : list (string * list byte)) (k : string) (v : list byte)
    (name : string) :
  In name (map fst (Cli.dict_set d k v)) <-> In name (map fst d) \/ name = k.
Proof.
  induction d as [|[k0 v0] d IH]; cbn [Cli.dict_set map fst In].
  - intuition congruence.
  - destruct (String.eqb_spec k0 k) as [->|Hk]; cbn [map fst In].
    + intuition congruence.
    + rewrite IH. intuition congruence.
Qed.

Lemma dict_keys_NoDup (d : list (string * list byte)) (k : string) (v : list byte) :
  NoDup (map fst d) -> NoDup (map fst (Cli.dict_set d k v)).
Proof.
  induction d as [|[k0 v0] d IH]; cbn [Cli.dict_set map fst]; intros Hnd.
  - constructor; [intros []|constructor].
  - inversion Hnd as [|x l Hnotin Hnd']; subst.
    destruct (String.eqb_spec k0 k) as [->|Hk]; cbn [map fst].
    + constructor; assumption.
    + constructor; [|apply IH; exact Hnd'].
      rewrite dict_keys_set. intros [Hin|Heq]; [exact (Hnotin Hin)|congruence].
Qed.

(** The dict that the loop over the attachments builds from [acc]. *)
Lemma read_attachments_dict (h : Cli.host) (paths : list string) : forall acc d,
  snd (Cli.read_attachments h paths acc) = inl d ->
  (NoDup (map fst acc) -> NoDup (map fst d)) /\
  (forall name, In name (map fst d) <->
                In name (map fst acc) \/ In name (map Cli.basename paths)) /\
  (forall name, ~ In name (map Cli.basename paths) ->
                Cli.dict_get d name = Cli.dict_get acc name) /\
  (forall pre p post data,
     paths = (pre ++ p :: post)%list ->
     ~ In (Cli.basename p) (map Cli.basename post) ->
     Cli.read_file h p = inl data ->
     Cli.dict_get d (Cli.basename p) = Some data).
Proof.
  induction paths as [|q l IH]; intros acc d Hd; cbn [Cli.read_attachments] in Hd.
  - injection Hd as <-. repeat split; try tauto.
    + cbn. tauto.
    + intros pre p post data E. destruct pre; discriminate E.
  - destruct (Cli.read_file h q) as [data|err] eqn:Eq.
    2:{ destruct (isinstance err Exception); discriminate Hd. }
    destruct (Cli.read_attachments h l _) as [effs r] eqn:Er.
    cbn [snd] in Hd. subst r.
    destruct (IH (Cli.dict_set acc (Cli.basename q) data) d)
      as (Hnd & Hkeys & Hkeep & Hlast); [rewrite Er; reflexivity|].
    split; [intros Hacc; apply Hnd, dict_keys_NoDup; exact Hacc|].
    split.
    { intros name. rewrite Hkeys, dict_keys_set. cbn [map In]. intuition congruence. }
    split.
    { intros name Hnot. cbn [map In] in Hnot.
      rewrite Hkeep by tauto. apply dict_get_set_other.
      intros E. apply Hnot. left. exact E. }
    intros pre p post data' E Hnot Hp.
    destruct pre as [|x pre]; cbn [app] in E; injection E as <- ->.
    + rewrite Hkeep by exact Hnot. rewrite Eq in Hp. injection Hp as <-.
      apply dict_get_set_same.
    + eapply Hlast; [reflexivity|exact Hnot|exact Hp].
Qed.

(** X15.  Attachments are keyed by the base name of their path.  When all
    files can be read, the mapping handed to [Mail] has one entry for each
    base name and no more; and for a base name that several paths share,
    the entry holds the bytes of the last such path. *)
Theorem attachments_keyed_by_basename (h : Cli.host) (paths : list string)
    (d : list (string * list byte)) :
  snd (Cli.read_attachments h paths []) = inl d ->
  NoDup (map fst d) /\
  (forall name, In name (map fst d) <-> In name (map Cli.basename paths)) /\
  (forall pre p post data,
     paths = (pre ++ p :: post)%list ->
     ~ In (Cli.basename p) (map Cli.basename post) ->
     Cli.read_file h p = inl data ->
     Cli.dict_get d (Cli.basename p) = Some data).
Proof.
  intros Hd.
  destruct (read_attachments_dict h paths [] d Hd) as (Hnd & Hkeys & _ & Hlast).
  split; [apply Hnd; constructor|].
  split; [|exact Hlast].
  intros name. rewrite Hkeys. cbn [map In]. tauto.
Qed.

(** X15, with two files called r.txt in different directories: one entry,
    with the bytes of the second. *)
Lemma attachments_keyed_by_basename_witness :
  snd (Cli.read_attachments (a_host env_ok) ["/tmp/a/r.txt"; "/tmp/b/r.txt"] [])
    = inl [("r.txt", [x02])] /\
  Cli.dict_get [("r.txt", [x02])] (Cli.basename "/tmp/b/r.txt") = Some [x02].
Proof.
  assert (H : snd (Cli.read_attachments (a_host env_ok)
                     ["/tmp/a/r.txt"; "/tmp/b/r.txt"] [])
              = inl [("r.txt", [x02])]) by reflexivity.
  split; [exact H|].
  refine (proj2 (proj2 (attachments_keyed_by_basename _ _ _ H))
            ["/tmp/a/r.txt"] "/tmp/b/r.txt" [] [x02] eq_refl _ eq_refl).
  intros [].
Defined.

(** X16.  Ctrl-C while sending: when a library call of attempt [k] raises
    KeyboardInterrupt, [send] does not catch it; it closes the connection
    if there is one and tries no more; the handler around [main] prints an
    empty line, and the script ends as if nothing had gone wrong, with
    status 0. *)
Theorem script_interrupted_while_sending (a : Cli.args) (h : Cli.host)
    (pw : string) (atts : list (string * list byte)) (k : Z) (e : exn) :
  snd (Cli.resolve_password a h) = inl pw ->
  snd (Cli.read_attachments h (Cli.attach a) []) = inl atts ->
  Cli.dry_run a = false ->
  Cli.to a <> [] ->
  0 <= k < 3 ->
  (forall i, 0 <= i < k -> caught (Cli.smtp h) i = true) ->
  failure (Cli.smtp h) k = Some e ->
  isinstance e KeyboardInterrupt = true ->
  snd (Cli.script a h) = Cli.finished /\
  Cli.exit_status (snd (Cli.script a h)) = 0 /\
  exists mail,
    Cli.the_mail a h pw atts = Return mail /\
    fst (Cli.script a h) =
      (fst (Cli.resolve_password a h) ++
       fst (Cli.read_attachments h (Cli.attach a) []) ++
       map Cli.io (world (fst (call_send (Cli.smtp h) mail 3))) ++
       [Cli.io (ev_print "")])%list /\
    snd (call_send (Cli.smtp h) mail 3) = Raise e /\
    Z.of_nat (attempts (world (fst (call_send (Cli.smtp h) mail 3)))) = k + 1.
Proof.
  intros Hpw Hatts Hdry Hto Hk Hbefore Hf Hki.
  pose proof (interrupt_is_not_OSError e Hki) as Hos.
  assert (Hnot : caught (Cli.smtp h) k = false)
    by (unfold caught; rewrite Hf; exact Hos).
  destruct (the_mail_returns a h pw atts) as (mail & Hmail & _ & Hmto).
  assert (Hne : (Mail.to mail ++ Mail.bcc mail)%list <> []).
  { rewrite Hmto. intros E. apply app_eq_nil in E. destruct E as [E _].
    exact (Hto E). }
  destruct (send_stops_at (Cli.smtp h) mail 3 k Hne Hk Hbefore Hnot)
    as (old & Hw & _ & Hr).
  specialize (Hr e Hf).
  assert (Em : Cli.main a h =
               ((fst (Cli.resolve_password a h) ++
                 fst (Cli.read_attachments h (Cli.attach a) []) ++
                 map Cli.io (world (fst (call_send (Cli.smtp h) mail 3))))%list,
                Cli.uncaught e)).
  { destruct (main_cases a h) as [(o & Ho & _)|[(pw' & o & _ & Ho & _)|
              (pw' & atts' & mail' & Hpw' & Hatts' & Hmail' & Em)]];
      [congruence|congruence|].
    rewrite Hpw in Hpw'. injection Hpw' as <-.
    rewrite Hatts in Hatts'. injection Hatts' as <-.
    rewrite Hmail in Hmail'. injection Hmail' as <-.
    rewrite Hdry in Em. unfold Mail.default_retries in Em.
    rewrite Hr in Em. exact Em. }
  unfold Cli.script. rewrite Em, Hki. cbn [fst snd Cli.exit_status].
  split; [reflexivity|]. split; [reflexivity|].
  exists mail. split; [exact Hmail|].
  split; [rewrite <- !app_assoc; reflexivity|].
  split; [exact Hr|].
  rewrite Hw, attempts_app, attempts_turns, attempts_turn. lia.
Qed.

(** X16, with Ctrl-C during the login of the first attempt. *)
Lemma script_interrupted_while_sending_witness :
  Cli.to cli_args_prompt <> [] /\ 0 <= 0 < 3 /\
  isinstance (mk_exn KeyboardInterrupt "") KeyboardInterrupt = true /\
  Cli.script cli_args_prompt (a_host env_interrupted) =
    ([ Cli.asked "Enter password for me@example.com on smtp.example.com: ";
       Cli.io (ev_SMTP "smtp.example.com"); Cli.io (ev_ehlo 0);
       Cli.io (ev_starttls 0); Cli.io (ev_ehlo 0);
       Cli.io (ev_login 0 "me@example.com" "typed");
       Cli.io (ev_close 0); Cli.io (ev_print "") ],
     Cli.finished).
Proof.
  assert (H : Cli.to cli_args_prompt <> []) by discriminate.
  assert (H0 : 0 <= 0 < 3) by lia.
  split; [exact H|]. split; [exact H0|]. split; [reflexivity|].
  destruct (script_interrupted_while_sending cli_args_prompt
              (a_host env_interrupted) _ _ 0 _
              eq_refl eq_refl eq_refl H H0
              (fun i (Hi : 0 <= i < 0) =>
                 False_ind _ (Z.lt_irrefl 0 (Z.le_lt_trans 0 i 0 (proj1 Hi) (proj2 Hi))))
              eq_refl eq_refl)
    as (Hfin & _ & mail & _ & Heffs & _).
  apply injective_projections; cbn [fst snd]; [|exact Hfin].
  reflexivity.
Defined.

(** X17.  The credentials the script logs in with: every login call has
    the user name given with [-u] and the password that was typed at the
    prompt ([-p]) or found in MAIL_PASSWORD (no [-p]), and it is made on a
    connection whose STARTTLS call returned. *)
Theorem script_login_credentials (a : Cli.args) (h : Cli.host)
    (c : Z) (u p : string) :
  In (Cli.io (ev_login c u p)) (fst (Cli.script a h)) ->
  u = Cli.user a /\
  (if Cli.password a
   then Cli.getpass h (Cli.password_prompt a) = inl p
   else Cli.environ h "MAIL_PASSWORD" = Some p) /\
  Cli.smtp h c c_starttls = None.
Proof.
  intros Hin.
  destruct (script_effects a h) as (_ & _ & Hsub).
  destruct (Hsub _ Hin) as [Hmain|Habs]; [|discriminate Habs]. clear Hin Hsub.
  assert (Hres : forall pw, snd (Cli.resolve_password a h) = inl pw ->
            if Cli.password a
            then Cli.getpass h (Cli.password_prompt a) = inl pw
            else Cli.environ h "MAIL_PASSWORD" = Some pw).
  { intros pw. unfold Cli.resolve_password.
    destruct (Cli.password a);
      [destruct (Cli.getpass h _)|destruct (Cli.environ h _)];
      cbn [snd]; intros [= ->]; reflexivity. }
  destruct (main_cases a h) as [(o & Ho & Em)|[(pw & o & Hpw & Ho & Em)|
            (pw & atts & mail & Hpw & Hatts & Hmail & Em)]];
    rewrite Em in Hmain; cbn [fst] in Hmain.
  - exfalso. exact (io_in_resolve_password a h _ Hmain).
  - exfalso. apply in_app_or in Hmain. destruct Hmain as [Hx|Hx].
    + exact (io_in_resolve_password a h _ Hx).
    + apply io_in_read_attachments in Hx. discriminate Hx.
  - destruct (the_mail_returns a h pw atts) as (mail' & Hmail' & Hsender & _).
    rewrite Hmail in Hmail'. injection Hmail' as <-.
    destruct (Cli.dry_run a); [destruct (as_string (Cli.smtp h))|];
      cbn [fst] in Hmain;
      apply in_app_or in Hmain; destruct Hmain as [Hx|Hx];
      try (exfalso; exact (io_in_resolve_password a h _ Hx));
      try (exfalso; apply io_in_read_attachments in Hx; discriminate Hx);
      apply in_app_or in Hx; destruct Hx as [Hx|Hx];
      try (exfalso; apply io_in_read_attachments in Hx; discriminate Hx).
    + exfalso. destruct Hx as [Hx|[]]. discriminate Hx.
    + apply in_map_iff in Hx. destruct Hx as (ev & Hev & Hx).
      injection Hev as ->.
      destruct (login_in_send _ _ _ _ _ _ Hx) as (-> & -> & Htls).
      rewrite Hsender. cbn [MailSender.user MailSender.password].
      split; [reflexivity|]. split; [apply Hres; exact Hpw|exact Htls].
Qed.

(** X17, with the password from the environment. *)
Lemma script_login_credentials_witness :
  In (Cli.io (ev_login 0 "me@example.com" "s3cr3t"))
     (fst (Cli.script cli_args (a_host env_ok))) /\
  Cli.environ (a_host env_ok) "MAIL_PASSWORD" = Some "s3cr3t".
Proof.
  assert (H : In (Cli.io (ev_login 0 "me@example.com" "s3cr3t"))
                 (fst (Cli.script cli_args (a_host env_ok)))).
  { vm_compute. do 6 right. left. reflexivity. }
  split; [exact H|].
  exact (proj1 (proj2 (script_login_credentials _ _ _ _ _ H))).
Defined.
